(** * Angle-gauge fields of scratch-blocks: FieldUntiangle and FieldPercent

    A shallow embedding of [core/field_untiangle.js] and of its sibling
    percent field, and the properties of their validators, dial geometry
    and pointer handling.  A field is a record of what the methods read
    and write: its text, the attributes of the SVG dial and the value of
    the inline input.  The construction of the DOM and the drop-down
    are left out; the listeners of a drag are kept beside the field, in
    [Drag].

    Numbers.  A JavaScript number is modelled by [number]: a finite value
    is a real number, next to the three special values.  Arithmetic on
    finite values is exact: the rounding of binary64 is not modelled, and
    the two zeros are identified.  A literal too large for binary64 reads
    as an infinity, as it does in JavaScript.  A zero divisor counts
    as [+0]; the only variable divisor of the code, [dx], is the result of
    a subtraction and is [+0] whenever it is zero.

    Strings.  A JavaScript string is either a sequence of characters or
    the decimal rendering [String(n)] of a number, kept as [Decimal n];
    reading a rendering back ([parseFloat], [Number]) gives [n] again. *)

From Stdlib Require Import Reals Lra Lia ZArith Bool List.
From Stdlib Require Import Ascii String.
Import ListNotations.

Local Open Scope R_scope.

(** ** JavaScript numbers *)

Inductive number : Type :=
| Fin (r : R)
| PosInf
| NegInf
| NaN.

Definition Rltb (x y : R) : bool := if Rlt_dec x y then true else false.
Definition Reqb (x y : R) : bool := if Req_dec_T x y then true else false.

(** [Math.trunc] on a real, as an integer. *)
Definition Ztrunc (x : R) : Z :=
  if Rltb x 0 then (- Zfloor (- x))%Z else Zfloor x.

(** The remainder of [%] on finite operands: it has the sign of the
    dividend. *)
Definition Rrem (x y : R) : R := x - y * IZR (Ztrunc (x / y)).

Module Js.

Definition isNaN (a : number) : bool :=
  match a with NaN => true | _ => false end.

Definition neg (a : number) : number :=
  match a with
  | Fin x => Fin (- x)
  | PosInf => NegInf
  | NegInf => PosInf
  | NaN => NaN
  end.

Definition add (a b : number) : number :=
  match a, b with
  | Fin x, Fin y => Fin (x + y)
  | NaN, _ | _, NaN => NaN
  | PosInf, NegInf | NegInf, PosInf => NaN
  | PosInf, _ | _, PosInf => PosInf
  | NegInf, _ | _, NegInf => NegInf
  end.

Definition sub (a b : number) : number := add a (neg b).

(** The sign of an infinite result: [true] for a negative one. *)
Definition signed_inf (negative : bool) : number :=
  if negative then NegInf else PosInf.

Definition mul (a b : number) : number :=
  match a, b with
  | Fin x, Fin y => Fin (x * y)
  | NaN, _ | _, NaN => NaN
  | Fin x, PosInf | PosInf, Fin x =>
      if Reqb x 0 then NaN else signed_inf (Rltb x 0)
  | Fin x, NegInf | NegInf, Fin x =>
      if Reqb x 0 then NaN else signed_inf (negb (Rltb x 0))
  | PosInf, PosInf | NegInf, NegInf => PosInf
  | PosInf, NegInf | NegInf, PosInf => NegInf
  end.

Definition div (a b : number) : number :=
  match a, b with
  | Fin x, Fin y =>
      if Reqb y 0
      then (if Reqb x 0 then NaN else signed_inf (Rltb x 0))
      else Fin (x / y)
  | NaN, _ | _, NaN => NaN
  | Fin _, (PosInf | NegInf) => Fin 0
  | PosInf, Fin y => signed_inf (Rltb y 0)
  | NegInf, Fin y => signed_inf (negb (Rltb y 0))
  | (PosInf | NegInf), (PosInf | NegInf) => NaN
  end.

(** The operator [%]. *)
Definition rem (a b : number) : number :=
  match a, b with
  | Fin x, Fin y => if Reqb y 0 then NaN else Fin (Rrem x y)
  | Fin x, (PosInf | NegInf) => Fin x
  | _, _ => NaN
  end.

Definition lt (a b : number) : bool :=
  match a, b with
  | Fin x, Fin y => Rltb x y
  | NaN, _ | _, NaN => false
  | _, NegInf => false
  | NegInf, _ => true
  | PosInf, _ => false
  | Fin _, PosInf => true
  end.

Definition gt (a b : number) : bool := lt b a.

(** Truthiness of a number: [0] and [NaN] are falsy. *)
Definition truthy (a : number) : bool :=
  match a with
  | Fin x => negb (Reqb x 0)
  | NaN => false
  | _ => true
  end.

(** [Number(b)] of a boolean. *)
Definition of_bool (b : bool) : number := if b then Fin 1 else Fin 0.

End Js.

Declare Scope js_scope.
Delimit Scope js_scope with js.
Bind Scope js_scope with number.
Infix "+" := Js.add : js_scope.
Infix "-" := Js.sub : js_scope.
Infix "*" := Js.mul : js_scope.
Infix "/" := Js.div : js_scope.
Infix "rem" := Js.rem (at level 40, no associativity) : js_scope.
Infix "<" := Js.lt : js_scope.
Infix ">" := Js.gt : js_scope.
Notation "- a" := (Js.neg a) : js_scope.

(** ** The [Math] object and [goog.math] *)

Module Math.

Definition PI : number := Fin Rtrigo1.PI.

Definition atan (a : number) : number :=
  match a with
  | Fin x => Fin (Ratan.atan x)
  | PosInf => Fin (Rtrigo1.PI / 2)
  | NegInf => Fin (- (Rtrigo1.PI / 2))
  | NaN => NaN
  end.

Definition cos (a : number) : number :=
  match a with Fin x => Fin (Rtrigo_def.cos x) | _ => NaN end.

Definition sin (a : number) : number :=
  match a with Fin x => Fin (Rtrigo_def.sin x) | _ => NaN end.

Definition abs (a : number) : number :=
  match a with
  | Fin x => Fin (Rabs x)
  | PosInf | NegInf => PosInf
  | NaN => NaN
  end.

Definition floor (a : number) : number :=
  match a with Fin x => Fin (IZR (Zfloor x)) | _ => a end.

(** [Math.round] takes the nearest integer, a tie going up. *)
Definition round (a : number) : number :=
  match a with Fin x => Fin (IZR (Zfloor (x + / 2))) | _ => a end.

End Math.

Module goog_math.

Definition toRadians (angleDegrees : number) : number :=
  (angleDegrees * Math.PI / Fin 180)%js.

Definition toDegrees (angleRadians : number) : number :=
  (angleRadians * Fin 180 / Math.PI)%js.

End goog_math.

(** ** Strings and values *)

Inductive str : Type :=
| Chars (s : string)
| Decimal (n : number).

(** The values the fields pass around: [null], a string or a number. *)
Inductive value : Type :=
| Null
| Str (t : str)
| Num (n : number).

(** Truthiness, and the operator [||]. *)
Definition is_truthy (v : value) : bool :=
  match v with
  | Null => false
  | Str (Chars EmptyString) => false
  | Str _ => true
  | Num n => Js.truthy n
  end.

Definition or (a b : value) : value := if is_truthy a then a else b.

Infix "||" := or : js_scope.

(** [String(v)]. *)
Definition ToString (v : value) : str :=
  match v with
  | Null => Chars "null"
  | Str t => t
  | Num n => Decimal n
  end.

(** ** Reading a number from characters

    The scanner follows the grammar of [StrDecimalLiteral]; characters
    are ASCII. *)

Module Scan.

Local Open Scope Z_scope.

Definition is_digit (c : ascii) : bool :=
  let n := nat_of_ascii c in (48 <=? n)%nat && (n <=? 57)%nat.

Definition digit (c : ascii) : Z := Z.of_nat (nat_of_ascii c - 48).

Definition is_white (c : ascii) : bool :=
  let n := nat_of_ascii c in
  ((9 <=? n)%nat && (n <=? 13)%nat) || (n =? 32)%nat.

Fixpoint skip_white (s : string) : string :=
  match s with
  | String c s' => if is_white c then skip_white s' else s
  | EmptyString => s
  end.

(** A run of digits: the value read onto [acc], how many digits were
    read onto [count], and what follows. *)
Fixpoint digits (s : string) (acc count : Z) : Z * Z * string :=
  match s with
  | String c s' =>
      if is_digit c then digits s' (10 * acc + digit c) (count + 1)
      else (acc, count, s)
  | EmptyString => (acc, count, s)
  end.

Definition sign (s : string) : bool * string :=
  match s with
  | String "-" s' => (true, s')
  | String "+" s' => (false, s')
  | _ => (false, s)
  end.

(** An [ExponentPart], when one is there: its value and what follows. *)
Definition exponent (s : string) : Z * string :=
  match s with
  | String c s' =>
      if (Ascii.eqb c "e" || Ascii.eqb c "E")%bool then
        let '(negative, s'') := sign s' in
        let '(v, k, rest) := digits s'' 0 0 in
        if k =? 0 then (0, s) else ((if negative then - v else v), rest)
      else (0, s)
  | EmptyString => (0, s)
  end.

Inductive literal : Type :=
| Infinity_lit (negative : bool)
| Decimal_lit (negative : bool) (mantissa : Z) (exp10 : Z).

Fixpoint drop (n : nat) (s : string) : string :=
  match n, s with
  | O, _ => s
  | Datatypes.S n', String _ s' => drop n' s'
  | _, EmptyString => s
  end.

(** The longest prefix of [s] that is a [StrDecimalLiteral], and what
    follows it. *)
Definition str_decimal_literal (s : string) : option (literal * string) :=
  let '(negative, s1) := sign s in
  if String.prefix "Infinity" s1 then Some (Infinity_lit negative, drop 8 s1)
  else
    let '(ip, ni, s2) := digits s1 0 0 in
    let '(m, nf, s3) :=
      match s2 with
      | String "." s' => digits s' ip 0
      | _ => (ip, 0, s2)
      end in
    if (ni =? 0) && (nf =? 0) then None
    else
      let '(e, s4) := exponent s3 in
      Some (Decimal_lit negative m (e - nf), s4).

(** A digit in the given radix, letters in either case. *)
Definition radix_digit (radix : Z) (c : ascii) : option Z :=
  let n := Z.of_nat (nat_of_ascii c) in
  let d :=
    if (48 <=? n) && (n <=? 57) then n - 48
    else if (97 <=? n) && (n <=? 122) then n - 87
    else if (65 <=? n) && (n <=? 90) then n - 55
    else radix in
  if d <? radix then Some d else None.

Fixpoint radix_digits (radix : Z) (s : string) (acc count : Z)
  : Z * Z * string :=
  match s with
  | String c s' =>
      match radix_digit radix c with
      | Some d => radix_digits radix s' (radix * acc + d) (count + 1)
      | None => (acc, count, s)
      end
  | EmptyString => (acc, count, s)
  end.

(** A [NonDecimalIntegerLiteral] at the head of [s]: [0x], [0o] or [0b]
    and digits of that radix. *)
Definition non_decimal_literal (s : string) : option (literal * string) :=
  match s with
  | String "0" (String c s') =>
      let radix :=
        if (Ascii.eqb c "x" || Ascii.eqb c "X")%bool then 16
        else if (Ascii.eqb c "o" || Ascii.eqb c "O")%bool then 8
        else if (Ascii.eqb c "b" || Ascii.eqb c "B")%bool then 2
        else 0 in
      if radix =? 0 then None
      else
        let '(m, k, rest) := radix_digits radix s' 0 0 in
        if k =? 0 then None else Some (Decimal_lit false m 0, rest)
  | _ => None
  end.

(** A [StrNumericLiteral] at the head of [s]. *)
Definition str_numeric_literal (s : string) : option (literal * string) :=
  match non_decimal_literal s with
  | Some r => Some r
  | None => str_decimal_literal s
  end.

(** From here on a magnitude rounds to an infinity in binary64: half
    way between the largest finite number and [2 ^ 1024]. *)
Definition overflow_bound : Z := 2 ^ 1024 - 2 ^ 970.

(** Whether [m * 10 ^ e] reaches that bound. *)
Definition overflows (m e : Z) : bool :=
  if m =? 0 then false
  else if 0 <=? e then overflow_bound <=? m * 10 ^ e
  else overflow_bound * 10 ^ (- e) <=? m.

Definition number_of_literal (l : literal) : number :=
  match l with
  | Infinity_lit negative => Js.signed_inf negative
  | Decimal_lit negative m e =>
      if overflows m e then Js.signed_inf negative
      else
        let v := (IZR m * powerRZ 10 e)%R in
        Fin (if negative then (- v)%R else v)
  end.

End Scan.

(** [parseFloat(v)]: the value of the longest numeric prefix of
    [String(v)], leading white space skipped; [NaN] without one. *)
Definition parseFloat (v : value) : number :=
  match ToString v with
  | Decimal n => n
  | Chars s =>
      match Scan.str_decimal_literal (Scan.skip_white s) with
      | Some (l, _) => Scan.number_of_literal l
      | None => NaN
      end
  end.

(** [Number(t)] of a string: the whole string is a numeric literal
    between optional white space, and blank text counts as [0]. *)
Definition Number (t : str) : number :=
  match t with
  | Decimal n => n
  | Chars s =>
      match Scan.skip_white s with
      | EmptyString => Fin 0
      | s1 =>
          match Scan.str_numeric_literal s1 with
          | Some (l, rest) =>
              match Scan.skip_white rest with
              | EmptyString => Scan.number_of_literal l
              | _ => NaN
              end
          | None => NaN
          end
      end
  end.

(** ** The field and its dial *)

(** The pieces of the array that [path.join('')] turns into the [d]
    attribute of the gauge. *)
Inductive piece : Type :=
| Txt (s : string)
| Val (n : number).

(** The SVG elements [showEditor_] keeps a handle on ([gauge_], [line_],
    [handle_], [arrowSvg_]), by the attributes [updateGraph_] writes. *)
Record Dial : Type := mkDial {
  gauge_d : option (list piece);
  line_x2 : option number;
  line_y2 : option number;
  handle_translate : option (number * number);
  arrow_rotate : option number
}.

Definition blank_dial : Dial := mkDial None None None None None.

(** A field: its text, whether it is rendered ([textElement_]), the
    cached width, the validator given to the constructor, the dial when
    the editor is open, and what the inline input shows. *)
Record Field : Type := mkField {
  text_ : str;
  textElement_ : bool;
  size_width : number;
  validator_ : option (value -> value);
  gauge_ : option Dial;
  htmlInput_value : str
}.

Definition with_text (st : Field) (t : str) : Field :=
  mkField t (textElement_ st) (size_width st) (validator_ st) (gauge_ st)
          (htmlInput_value st).

Definition with_width (st : Field) (w : number) : Field :=
  mkField (text_ st) (textElement_ st) w (validator_ st) (gauge_ st)
          (htmlInput_value st).

Definition with_gauge (st : Field) (g : option Dial) : Field :=
  mkField (text_ st) (textElement_ st) (size_width st) (validator_ st) g
          (htmlInput_value st).

(** The assignment [Blockly.FieldTextInput.htmlInput_.value = v]: the
    input element keeps a string, the empty one for [null]. *)
Definition with_htmlInput (st : Field) (v : value) : Field :=
  mkField (text_ st) (textElement_ st) (size_width st) (validator_ st)
          (gauge_ st)
          (match v with Null => Chars "" | _ => ToString v end).

(** A pointer event, with the bounding box of the dial at that moment;
    the coordinates are finite. *)
Record MouseEvent : Type := mkEvent {
  clientX : R;
  clientY : R;
  bBox_left : R;
  bBox_top : R
}.

(** *** The base class *)

Module Host.

(** Modelled from the spec: [getText] of the base class is not among
    the sources.  It gives the text the field holds. *)
Definition getText (st : Field) : str := text_ st.

(** Modelled from the spec: [Blockly.FieldTextInput.prototype.setText],
    the text storage of the base class, is not among the sources.  It
    stores the text, and leaves the field alone on [null]. *)
Definition setText (st : Field) (text : value) : Field :=
  match text with
  | Null => st
  | _ => with_text st (ToString text)
  end.

(** Modelled from the spec: [callValidator] of the base class is not
    among the sources.  The field's own [classValidator] runs first; the
    validator given to the constructor may then veto ([null]) or rewrite
    the value. *)
Definition callValidator (classValidator : value -> value) (st : Field)
    (text : value) : value :=
  match classValidator text with
  | Null => Null
  | classResult =>
      match validator_ st with
      | None => classResult
      | Some userValidator => userValidator classResult
      end
  end.

(** Modelled from the spec: [validate_] of the base class is not among
    the sources.  It marks the inline editor as valid or not; the value,
    the text and the dial are not its to change. *)
Definition validate_ (st : Field) : Field := st.

(** Modelled from the spec: [resizeEditor_] of the base class is not
    among the sources.  It measures the inline editor again; the value,
    the text and the dial are not its to change. *)
Definition resizeEditor_ (st : Field) : Field := st.

(** Modelled from the spec: [showEditor_] of the base class is not among
    the sources.  It opens the inline text editor over the field and
    leaves the value alone. *)
Definition showEditor_ (st : Field) (noFocus : bool) : Field := st.

End Host.

(** ** What the two fields share

    [setText] and [updateGraph_] read the same in both files, and so do
    the statements of [onMouseMove] between the guard on [NaN] and the
    rounding; they are written once, over the constants of the class. *)

Module Gauge.

Section Preset.

Variable CLOCKWISE : bool.
Variables OFFSET HALF RADIUS ROUND : number.

Local Open Scope js_scope.

(** [updateGraph_]: redraw the graph with the current angle. *)
Definition updateGraph_ (st : Field) : Field :=
  match gauge_ st with
  | None => st
  | Some dial =>
      let angleDegrees := Number (Host.getText st) rem Fin 360 + OFFSET in
      let angleRadians := goog_math.toRadians angleDegrees in
      let path := [Txt "M "; Val HALF; Txt ","; Val HALF] in
      let x2 := HALF in
      let y2 := HALF in
      let '(path, x2, y2, rotation) :=
        if negb (Js.isNaN angleRadians) then
          let angle1 := goog_math.toRadians OFFSET in
          let x1 := Math.cos angle1 * RADIUS in
          let y1 := Math.sin angle1 * - RADIUS in
          let angleRadians :=
            if CLOCKWISE then Fin 2 * angle1 - angleRadians
            else angleRadians in
          let x2 := x2 + Math.cos angleRadians * RADIUS in
          let y2 := y2 - Math.sin angleRadians * RADIUS in
          let largeFlag :=
            if Math.abs (angleDegrees - OFFSET) > Fin 180 then Fin 1
            else Fin 0 in
          let sweepFlag := Js.of_bool CLOCKWISE in
          let sweepFlag :=
            if angleDegrees < OFFSET then Fin 1 - sweepFlag
            else sweepFlag in
          let path :=
            (path ++ [Txt " l "; Val x1; Txt ","; Val y1;
                      Txt " A "; Val RADIUS; Txt ","; Val RADIUS;
                      Txt " 0 "; Val largeFlag; Txt " "; Val sweepFlag;
                      Txt " "; Val x2; Txt ","; Val y2; Txt " z"])%list in
          let imageRotation :=
            if CLOCKWISE then angleDegrees + Fin 2 * OFFSET
            else - angleDegrees in
          (path, x2, y2, Some imageRotation)
        else (path, x2, y2, arrow_rotate dial) in
      with_gauge st
        (Some (mkDial (Some path) (Some x2) (Some y2) (Some (x2, y2))
                      rotation))
  end.

(** [setText]: store the text, then redraw when the field is rendered. *)
Definition setText (st : Field) (text : value) : Field :=
  let st := Host.setText st text in
  if negb (textElement_ st) then st
  else
    let st := updateGraph_ st in
    with_width st (Fin 0).

(** Modelled from the spec: [setValue] of the base class is not among
    the sources.  A [null] is dropped and the prior value stays; any
    other value is committed through [setText]. *)
Definition setValue (st : Field) (newValue : value) : Field :=
  match newValue with
  | Null => st
  | _ => setText st newValue
  end.

(** [onMouseMove]: where the pointer is from the centre of the dial. *)
Definition pointer_dx (e : MouseEvent) : number :=
  Fin (clientX e) - Fin (bBox_left e) - HALF.

Definition pointer_dy (e : MouseEvent) : number :=
  Fin (clientY e) - Fin (bBox_top e) - HALF.

(** [onMouseMove], past the guard on [NaN]: to degrees, with 0 for East,
    90 for North, 180 for West and 270 for South. *)
Definition bearing (dx dy angle : number) : number :=
  let angle := goog_math.toDegrees angle in
  if dx < Fin 0 then angle + Fin 180
  else if dy > Fin 0 then angle + Fin 360
  else angle.

(** [onMouseMove], from there to the rounding. *)
Definition degrees (dx dy angle : number) : number :=
  let angle := bearing dx dy angle in
  let angle :=
    if CLOCKWISE then OFFSET + Fin 360 - angle
    else angle - OFFSET in
  if Js.truthy ROUND then Math.round (angle / ROUND) * ROUND
  else angle.

(** The angle [onMouseMove] works out for a pointer at [dx], [dy] from
    the centre, [NaN] when its guard fires: the [pointToDegrees] of the
    specification. *)
Definition pointToDegrees (dx dy : number) : number :=
  let angle := Math.atan (- dy / dx) in
  if Js.isNaN angle then angle
  else degrees dx dy angle.

End Preset.

End Gauge.

(** ** The untiangle field *)

Module FieldUntiangle.

Local Open Scope js_scope.

Definition ROUND : number := Fin 15.
Definition HALF : number := Fin 120 / Fin 2.
Definition CLOCKWISE : bool := false.
Definition OFFSET : number := Fin 90.
Definition WRAP : number := Fin 180.
Definition HANDLE_RADIUS : number := Fin 10.
Definition HANDLE_GLOW_WIDTH : number := Fin 3.
Definition RADIUS : number := HALF - HANDLE_RADIUS - HANDLE_GLOW_WIDTH.

Definition updateGraph_ : Field -> Field :=
  Gauge.updateGraph_ CLOCKWISE OFFSET HALF RADIUS.

Definition setText : Field -> value -> Field :=
  Gauge.setText CLOCKWISE OFFSET HALF RADIUS.

Definition setValue : Field -> value -> Field :=
  Gauge.setValue CLOCKWISE OFFSET HALF RADIUS.

(** [classValidator]: ensure that only an angle may be entered. *)
Definition classValidator (text : value) : value :=
  match text with
  | Null => Null
  | _ =>
      let n := parseFloat (text || Num (Fin 0)) in
      if Js.isNaN n then Null
      else
        let n := n rem Fin 360 in
        let n := if n < Fin 0 then n + Fin 360 else n in
        let n := if n > WRAP then n - Fin 360 else n in
        Str (ToString (Num n))
  end.

(** [showEditor_]: the dial is built anew, then drawn.  [noFocus] is
    what the user agent says about mobile browsers. *)
Definition showEditor_ (noFocus : bool) (st : Field) : Field :=
  let st := Host.showEditor_ st noFocus in
  let st := with_gauge st (Some blank_dial) in
  updateGraph_ st.

(** [onMouseMove]: set the angle to match the mouse's position.  Without
    a gauge the handler throws, which is [None]. *)
Definition onMouseMove (st : Field) (e : MouseEvent) : option Field :=
  match gauge_ st with
  | None => None
  | Some _ =>
      let dx := Gauge.pointer_dx HALF e in
      let dy := Gauge.pointer_dy HALF e in
      let angle := Math.atan (- dy / dx) in
      if Js.isNaN angle then Some st
      else
        let angle := Gauge.degrees CLOCKWISE OFFSET ROUND dx dy angle in
        let angle := Host.callValidator classValidator st (Num angle) in
        let st := with_htmlInput st angle in
        let st := setValue st angle in
        let st := Host.validate_ st in
        Some (Host.resizeEditor_ st)
  end.

End FieldUntiangle.

(** ** The percent field *)

Module FieldPercent.

Local Open Scope js_scope.

Definition ROUND : number := Fin 3.565.
Definition HALF : number := Fin 120 / Fin 2.
Definition CLOCKWISE : bool := true.
Definition OFFSET : number := Fin 90.
Definition WRAP : number := Fin 360.
Definition HANDLE_RADIUS : number := Fin 10.
Definition HANDLE_GLOW_WIDTH : number := Fin 3.
Definition RADIUS : number := HALF - HANDLE_RADIUS - HANDLE_GLOW_WIDTH.

Definition updateGraph_ : Field -> Field :=
  Gauge.updateGraph_ CLOCKWISE OFFSET HALF RADIUS.

Definition setText : Field -> value -> Field :=
  Gauge.setText CLOCKWISE OFFSET HALF RADIUS.

Definition setValue : Field -> value -> Field :=
  Gauge.setValue CLOCKWISE OFFSET HALF RADIUS.

(** [classValidator]: ensure that only a number may be entered. *)
Definition classValidator (text : value) : value :=
  match text with
  | Null => Null
  | _ =>
      let n := parseFloat (text || Num (Fin 0)) in
      if Js.isNaN n then Null
      else Str (ToString (Num n))
  end.

(** [showEditor_]: the dial is built anew, the value is reset, and the
    dial is drawn.  [noFocus] is what the user agent says about mobile
    browsers. *)
Definition showEditor_ (noFocus : bool) (st : Field) : Field :=
  let st := Host.showEditor_ st noFocus in
  let st := with_gauge st (Some blank_dial) in
  let reset_percent := Number (Host.getText st) * ROUND in
  let _ := Host.callValidator classValidator st (Num reset_percent) in
  let st := setValue st (Num reset_percent) in
  updateGraph_ st.

(** [onMouseMove]: set the angle to match the mouse's position.  Without
    a gauge the handler throws, which is [None]. *)
Definition onMouseMove (st : Field) (e : MouseEvent) : option Field :=
  match gauge_ st with
  | None => None
  | Some _ =>
      let dx := Gauge.pointer_dx HALF e in
      let dy := Gauge.pointer_dy HALF e in
      let angle := Math.atan (- dy / dx) in
      if Js.isNaN angle then Some st
      else
        let angle := Gauge.degrees CLOCKWISE OFFSET ROUND dx dy angle in
        let tmp := angle rem Fin 360 in
        let st := with_htmlInput st (Num (Math.floor (tmp / ROUND))) in
        let st := setValue st (Num angle) in
        let st := Host.validate_ st in
        Some (Host.resizeEditor_ st)
  end.

End FieldPercent.

(** ** A field and pointer events to try the handlers on *)

Module Sample.

(** A rendered field holding "0", its dial just opened. *)
Definition field0 : Field :=
  mkField (Chars "0") true (Fin 0) None (Some blank_dial) (Chars "0").

(** The pointer on the centre of the dial: [dx = 0], [dy = 0]. *)
Definition at_center : MouseEvent := mkEvent 60 60 0 0.

(** The pointer straight above the centre: [dx = 0], [dy = -50]. *)
Definition straight_up : MouseEvent := mkEvent 60 10 0 0.

(** The pointer to the right of the centre: [dx = 50], [dy = 0]. *)
Definition to_the_right : MouseEvent := mkEvent 110 60 0 0.

(** The pointer below and right of the centre: [dx = 1], [dy = 1]. *)
Definition down_right : MouseEvent := mkEvent 61 61 0 0.

End Sample.

(** ** The specification's own words *)

Module Spec.

(** The normalisation of the untiangle preset: the remainder by 360, 360
    added to a negative one, 360 taken off what exceeds the wrap of 180. *)
Definition normalize (v : R) : R :=
  let n := Rrem v 360 in
  let n := if Rltb n 0 then n + 360 else n in
  if Rltb 180 n then n - 360 else n.

End Spec.

(** ** The pointer arithmetic on finite values, as real numbers *)

Module Real.

(** The arc tangent [onMouseMove] starts from, away from the centre. *)
Definition slope_angle (dx dy : R) : R :=
  if Reqb dx 0 then (if Rltb dy 0 then PI / 2 else - (PI / 2))
  else atan (- dy / dx).

Definition bearing (dx dy a : R) : R :=
  let d := a * 180 / PI in
  if Rltb dx 0 then d + 180
  else if Rltb 0 dy then d + 360
  else d.

(** The angle a pointer stands for, before it is rounded. *)
Definition unrounded (clockwise : bool) (offset dx dy : R) : R :=
  let b := bearing dx dy (slope_angle dx dy) in
  if clockwise then offset + 360 - b else b - offset.

(** [Math.round(x / step) * step]. *)
Definition quantize (step x : R) : R := IZR (Zfloor (x / step + / 2)) * step.

(** The angle [updateGraph_] draws for the value [v], in degrees. *)
Definition effective (offset v : R) : R := Rrem v 360 + offset.

(** The same in radians, mirrored about the offset when clockwise. *)
Definition handle_angle (clockwise : bool) (offset v : R) : R :=
  let a := effective offset v * PI / 180 in
  if clockwise then 2 * (offset * PI / 180) - a else a.

(** The dial [updateGraph_] leaves for a finite value. *)
Definition drawn (clockwise : bool) (offset half radius v : R) : Dial :=
  let angleDegrees := effective offset v in
  let angle1 := offset * PI / 180 in
  let x2 := half + cos (handle_angle clockwise offset v) * radius in
  let y2 := half - sin (handle_angle clockwise offset v) * radius in
  let largeFlag :=
    if Rltb 180 (Rabs (angleDegrees - offset)) then Fin 1 else Fin 0 in
  let sweepFlag :=
    if Rltb angleDegrees offset then (Fin 1 - Js.of_bool clockwise)%js
    else Js.of_bool clockwise in
  mkDial
    (Some [Txt "M "; Val (Fin half); Txt ","; Val (Fin half);
           Txt " l "; Val (Fin (cos angle1 * radius)); Txt ",";
           Val (Fin (sin angle1 * - radius));
           Txt " A "; Val (Fin radius); Txt ","; Val (Fin radius);
           Txt " 0 "; Val largeFlag; Txt " "; Val sweepFlag;
           Txt " "; Val (Fin x2); Txt ","; Val (Fin y2); Txt " z"])
    (Some (Fin x2)) (Some (Fin y2)) (Some (Fin x2, Fin y2))
    (Some (Fin (if clockwise then angleDegrees + 2 * offset
                else - angleDegrees))).

End Real.

(** ** Construction *)

Module Ctor.

(** [ToNumber], which the global [isNaN] applies to its argument. *)
Definition ToNumber (v : value) : number :=
  match v with
  | Null => Fin 0
  | Str t => Number t
  | Num n => n
  end.

(** The global [isNaN(v)]. *)
Definition isNaN (v : value) : bool := Js.isNaN (ToNumber v).

(** The constructors, first statement: the text the field starts with.
    An argument left out is [None]. *)
Definition initial_text (opt_value : option value) : str :=
  match opt_value with
  | Some v =>
      if is_truthy v && negb (isNaN v) then ToString v else Chars "0"
  | None => Chars "0"
  end.

(** Modelled from the spec: the constructor of the base class is not
    among the sources.  The field it makes holds the text it is given
    and the validator, is not rendered yet and has no dial. *)
Definition super_constructor (text : str)
    (opt_validator : option (value -> value)) : Field :=
  mkField text false (Fin 0) opt_validator None (Chars "").

(** [new Blockly.FieldUntiangle(opt_value, opt_validator)], and the same
    for [Blockly.FieldPercent]: the two constructors differ in the name
    of the argument type only. *)
Definition new (opt_value : option value)
    (opt_validator : option (value -> value)) : Field :=
  super_constructor (initial_text opt_value) opt_validator.




(** [numRestrictor], the regular expression
    [[\d]|[\.]|[-]|[eE]], tried on one typed character. *)
Definition numRestrictor (c : ascii) : bool :=
  Scan.is_digit c || Ascii.eqb c "." || Ascii.eqb c "-"
  || Ascii.eqb c "e" || Ascii.eqb c "E".

(** Every character of a string passes a test. *)
Fixpoint every (p : ascii -> bool) (s : string) : bool :=
  match s with
  | EmptyString => true
  | String c s' => p c && every p s'
  end.

End Ctor.

(** The field with another validator given to it. *)
Definition with_validator (st : Field) (f : option (value -> value)) : Field :=
  mkField (text_ st) (textElement_ st) (size_width st) f (gauge_ st)
          (htmlInput_value st).

(** ** The listeners of a drag

    [showEditor_], [onMouseDown], [onMouseUp] and [dispose_] read the
    same in both files.  What they bind and unbind is kept beside the
    field, in a page that knows the listeners bound at the moment. *)

Module Drag.

Inductive event_type : Type := mousedown | mousemove | mouseup.

Inductive node : Type := handle | document_body.

(** A bound listener, under the number its wrapper goes by. *)
Record listener : Type := mkListener {
  id : nat;
  target : node;
  type : event_type
}.

(** The listeners bound now, and the number of the next wrapper. *)
Record Page : Type := mkPage {
  bound : list listener;
  next : nat
}.

(** Modelled from the spec: [Blockly.bindEvent_] is not among the
    sources.  It subscribes to an event on a node and gives back the
    wrapper to unsubscribe with. *)
Definition bindEvent_ (p : Page) (n : node) (name : event_type) : Page * nat :=
  (mkPage (mkListener (next p) n name :: bound p) (S (next p)), next p).

(** Modelled from the spec: [Blockly.unbindEvent_] is not among the
    sources.  It releases the subscription of a wrapper, and there is
    nothing to release for a wrapper that was unbound before. *)
Definition unbindEvent_ (p : Page) (wrapper : nat) : Page :=
  mkPage (filter (fun l => negb (Nat.eqb (id l) wrapper)) (bound p)) (next p).

(** A field with its three wrappers, [None] for one never set, and the
    page it lives in. *)
Record Widget : Type := mkWidget {
  field : Field;
  mouseDownWrapper_ : option nat;
  mouseMoveWrapper_ : option nat;
  mouseUpWrapper_ : option nat;
  page : Page
}.

(** [showEditor_], with the listener it binds on the handle; [show] is
    the rest of it, [FieldUntiangle.showEditor_] or
    [FieldPercent.showEditor_]. *)
Definition showEditor_ (show : Field -> Field) (w : Widget) : Widget :=
  let '(p, wrapper) := bindEvent_ (page w) handle mousedown in
  mkWidget (show (field w)) (Some wrapper) (mouseMoveWrapper_ w)
           (mouseUpWrapper_ w) p.

(** [onMouseDown]. *)
Definition onMouseDown (w : Widget) : Widget :=
  let '(p, move) := bindEvent_ (page w) document_body mousemove in
  let '(p, up) := bindEvent_ p document_body mouseup in
  mkWidget (field w) (mouseDownWrapper_ w) (Some move) (Some up) p.

(** [onMouseUp].  Unbinding needs a wrapper: with one of the two never
    set the call throws, which is [None]. *)
Definition onMouseUp (w : Widget) : option Widget :=
  match mouseMoveWrapper_ w, mouseUpWrapper_ w with
  | Some move, Some up =>
      let p := unbindEvent_ (page w) move in
      let p := unbindEvent_ p up in
      Some (mkWidget (field w) (mouseDownWrapper_ w) (mouseMoveWrapper_ w)
                     (mouseUpWrapper_ w) p)
  | _, _ => None
  end.

(** Modelled from the spec: [dispose_] of the base class is not among
    the sources.  It closes the inline editor; the text, the dial and
    the listeners of the drag are not its to change. *)
Definition super_dispose_ (st : Field) : Field := st.

Definition unbind_if_set (p : Page) (wrapper : option nat) : Page :=
  match wrapper with
  | Some wr => unbindEvent_ p wr
  | None => p
  end.

(** The closure [dispose_] returns, run. *)
Definition dispose_ (w : Widget) : Widget :=
  let st := super_dispose_ (field w) in
  let st := with_gauge st None in
  let p := unbind_if_set (page w) (mouseDownWrapper_ w) in
  let p := unbind_if_set p (mouseUpWrapper_ w) in
  let p := unbind_if_set p (mouseMoveWrapper_ w) in
  mkWidget st (mouseDownWrapper_ w) (mouseMoveWrapper_ w)
           (mouseUpWrapper_ w) p.

(** The wrappers handed out so far are below [next]. *)
Definition numbered (p : Page) : Prop :=
  Forall (fun l => (id l < next p)%nat) (bound p).

(** A widget for a field that was just made, in a page. *)
Definition fresh (st : Field) (p : Page) : Widget :=
  mkWidget st None None None p.

End Drag.

(** * Properties *)

(** ** Comparisons, truncation and remainder on reals *)

Lemma Rltb_true (x y : R) : x < y -> Rltb x y = true.
Proof. intros H. unfold Rltb. destruct (Rlt_dec x y); [reflexivity | contradiction]. Qed.

Lemma Rltb_false (x y : R) : y <= x -> Rltb x y = false.
Proof. intros H. unfold Rltb. destruct (Rlt_dec x y); [lra | reflexivity]. Qed.

Lemma Rltb_spec (x y : R) : Rltb x y = true <-> x < y.
Proof. unfold Rltb. destruct (Rlt_dec x y); split; intros; try easy. Qed.

Lemma Reqb_true (x y : R) : x = y -> Reqb x y = true.
Proof. intros H. unfold Reqb. destruct (Req_dec_T x y); [reflexivity | contradiction]. Qed.

Lemma Reqb_false (x y : R) : x <> y -> Reqb x y = false.
Proof. intros H. unfold Reqb. destruct (Req_dec_T x y); [contradiction | reflexivity]. Qed.

Lemma Reqb_spec (x y : R) : Reqb x y = true <-> x = y.
Proof. unfold Reqb. destruct (Req_dec_T x y); split; intros; try easy. Qed.

(** Decide the comparisons of a goal by linear arithmetic. *)
Ltac decide_R :=
  repeat match goal with
  | |- context [Rltb ?x ?y] =>
      first [ rewrite (Rltb_true x y) by lra
            | rewrite (Rltb_false x y) by lra ]
  | |- context [Reqb ?x ?y] =>
      first [ rewrite (Reqb_true x y) by lra
            | rewrite (Reqb_false x y) by lra ]
  end.

Lemma Ztrunc_nonneg (x : R) :
  0 <= x -> IZR (Ztrunc x) <= x < IZR (Ztrunc x) + 1 /\ 0 <= IZR (Ztrunc x).
Proof.
  intros Hx. unfold Ztrunc. rewrite Rltb_false by lra.
  split; [apply Zfloor_bound |].
  apply IZR_le, Zfloor_lub. simpl. lra.
Qed.

Lemma Ztrunc_neg (x : R) :
  x < 0 -> x <= IZR (Ztrunc x) < x + 1 /\ IZR (Ztrunc x) <= 0.
Proof.
  intros Hx. unfold Ztrunc. rewrite Rltb_true by lra.
  rewrite opp_IZR. pose proof (Zfloor_bound (- x)) as [Hl Hu].
  assert (0 <= IZR (Zfloor (- x))).
  { apply IZR_le, Zfloor_lub. simpl. lra. }
  lra.
Qed.

Lemma Rdiv_nonneg (x y : R) : 0 <= x -> 0 < y -> 0 <= x / y.
Proof. intros Hx Hy. unfold Rdiv. apply Rle_mult_inv_pos; assumption. Qed.

(** The remainder is smaller than the divisor and has the sign of the
    dividend. *)
Lemma Rrem_nonneg (x y : R) : 0 < y -> 0 <= x -> 0 <= Rrem x y < y.
Proof.
  intros Hy Hx. unfold Rrem.
  assert (Hq : 0 <= x / y) by (apply Rdiv_nonneg; lra).
  destruct (Ztrunc_nonneg _ Hq) as [[Hl Hu] _].
  assert (Hxy : x = x / y * y) by (field; lra).
  split; nra.
Qed.

Lemma Rrem_neg (x y : R) : 0 < y -> x < 0 -> - y < Rrem x y <= 0.
Proof.
  intros Hy Hx. unfold Rrem.
  assert (Hq : x / y < 0) by (apply Rdiv_neg_pos; lra).
  destruct (Ztrunc_neg _ Hq) as [[Hl Hu] _].
  assert (Hxy : x = x / y * y) by (field; lra).
  split; nra.
Qed.

Lemma Rrem_bound (x y : R) : 0 < y -> - y < Rrem x y < y.
Proof.
  intros Hy. destruct (Rlt_dec x 0) as [Hx | Hx].
  - pose proof (Rrem_neg x y Hy Hx). lra.
  - pose proof (Rrem_nonneg x y Hy). lra.
Qed.

(** The remainder differs from the dividend by a multiple of the
    divisor. *)
Lemma Rrem_multiple (x y : R) : exists k : Z, Rrem x y = x + y * IZR k.
Proof.
  exists (- Ztrunc (x / y))%Z. unfold Rrem. rewrite opp_IZR. ring.
Qed.

Lemma Rrem_small (x y : R) : 0 <= x < y -> Rrem x y = x.
Proof.
  intros [Hx Hy]. unfold Rrem.
  assert (Hq : 0 <= x / y < 1).
  { split; [apply Rdiv_nonneg; lra |].
    apply Rmult_lt_reg_r with y; [lra |].
    replace (x / y * y) with x by (field; lra). lra. }
  unfold Ztrunc. rewrite Rltb_false by lra.
  rewrite (Zfloor_eq 0 (x / y)) by (simpl; lra). simpl. ring.
Qed.

(** ** Reading text *)

(** Evaluate the scanner on the characters of the goal. *)
Ltac scan :=
  cbv [parseFloat Number ToString or is_truthy Js.truthy];
  repeat match goal with
  | |- context [Scan.str_decimal_literal ?s] =>
      let r := eval vm_compute in (Scan.str_decimal_literal s) in
      change (Scan.str_decimal_literal s) with r
  end;
  cbv [Scan.number_of_literal];
  repeat match goal with
  | |- context [Scan.overflows ?m ?e] =>
      let r := eval vm_compute in (Scan.overflows m e) in
      change (Scan.overflows m e) with r
  end;
  cbv [Js.signed_inf].


Lemma parseFloat_400 : parseFloat (Str (Chars "400") || Num (Fin 0))%js = Fin 400.
Proof. scan. simpl. f_equal. lra. Qed.

Lemma parseFloat_12abc : parseFloat (Str (Chars "12abc") || Num (Fin 0))%js = Fin 12.
Proof. scan. simpl. f_equal. lra. Qed.

Lemma parseFloat_abc : parseFloat (Str (Chars "abc") || Num (Fin 0))%js = NaN.
Proof. scan. reflexivity. Qed.

Lemma parseFloat_empty : parseFloat (Str (Chars "") || Num (Fin 0))%js = Fin 0.
Proof. reflexivity. Qed.

(** A rendered number reads back as itself. *)
Lemma parseFloat_Decimal (n : number) :
  parseFloat (Str (Decimal n) || Num (Fin 0))%js = n.
Proof. reflexivity. Qed.

(** A number passed in place of text reads as itself when finite. *)
Lemma parseFloat_Num (v : R) :
  parseFloat (Num (Fin v) || Num (Fin 0))%js = Fin v.
Proof.
  unfold or, is_truthy, Js.truthy, Reqb.
  destruct (Req_dec_T v 0) as [-> | Hv]; reflexivity.
Qed.

(** The validator of the untiangle field on anything but [null]. *)
Lemma classValidator_untiangle_unfold (text : value) :
  text <> Null ->
  FieldUntiangle.classValidator text =
  let n := parseFloat (text || Num (Fin 0))%js in
  if Js.isNaN n then Null
  else
    let n := (n rem Fin 360)%js in
    let n := if (n < Fin 0)%js then (n + Fin 360)%js else n in
    let n := if (n > FieldUntiangle.WRAP)%js then (n - Fin 360)%js else n in
    Str (Decimal n).
Proof. intros H. destruct text; [contradiction | |]; reflexivity. Qed.

Lemma classValidator_untiangle_Str (t : str) :
  FieldUntiangle.classValidator (Str t) =
  let n := parseFloat (Str t || Num (Fin 0))%js in
  if Js.isNaN n then Null
  else
    let n := (n rem Fin 360)%js in
    let n := if (n < Fin 0)%js then (n + Fin 360)%js else n in
    let n := if (n > FieldUntiangle.WRAP)%js then (n - Fin 360)%js else n in
    Str (Decimal n).
Proof. reflexivity. Qed.

Lemma normalize_range (v : R) : -180 < Spec.normalize v <= 180.
Proof.
  unfold Spec.normalize.
  pose proof (Rrem_bound v 360 ltac:(lra)) as Hb.
  unfold Rltb.
  destruct (Rlt_dec (Rrem v 360) 0);
    match goal with |- context [Rlt_dec 180 ?x] => destruct (Rlt_dec 180 x) end;
    lra.
Qed.


(** The validator of the untiangle field on what reads as a finite
    number. *)
Lemma classValidator_untiangle_value (text : value) (v : R) :
  text <> Null ->
  parseFloat (text || Num (Fin 0))%js = Fin v ->
  FieldUntiangle.classValidator text = Str (Decimal (Fin (Spec.normalize v))).
Proof.
  intros Hn H. rewrite classValidator_untiangle_unfold by assumption.
  rewrite H. cbn zeta.
  unfold Spec.normalize, FieldUntiangle.WRAP.
  cbn [Js.isNaN Js.rem]. rewrite (Reqb_false 360 0) by lra.
  cbn [Js.lt].
  destruct (Rltb (Rrem v 360) 0); cbn [Js.add Js.gt Js.lt];
    match goal with |- context [Rltb 180 ?x] => destruct (Rltb 180 x) end;
    reflexivity.
Qed.

Lemma classValidator_untiangle_finite (t : str) (v : R) :
  parseFloat (Str t || Num (Fin 0))%js = Fin v ->
  FieldUntiangle.classValidator (Str t) = Str (Decimal (Fin (Spec.normalize v))).
Proof. apply classValidator_untiangle_value. discriminate. Qed.

(** ** The validators *)

Lemma classValidator_percent_finite (text : value) (v : R) :
  text <> Null ->
  parseFloat (text || Num (Fin 0))%js = Fin v ->
  FieldPercent.classValidator text = Str (Decimal (Fin v)).
Proof.
  intros Hn H. unfold FieldPercent.classValidator.
  destruct text as [| t | n]; [contradiction | |]; rewrite H; reflexivity.
Qed.

(** C3.  The validator of the percent field returns the number it reads,
    as it is: there is no wrap and no clamp, for text and for a number
    passed in its place.  Text that is no number, such as "abc", is
    rejected with [null], and committing that verdict leaves the field
    as it was. *)
Theorem percent_classValidator_identity :
  (forall (t : str) (v : R),
      parseFloat (Str t || Num (Fin 0))%js = Fin v ->
      FieldPercent.classValidator (Str t) = Str (Decimal (Fin v)))
  /\ (forall v : R,
         FieldPercent.classValidator (Num (Fin v)) = Str (Decimal (Fin v)))
  /\ FieldPercent.classValidator (Str (Chars "400")) = Str (Decimal (Fin 400))
  /\ FieldPercent.classValidator (Str (Chars "abc")) = Null
  /\ (forall st : Field,
         FieldPercent.setValue st
           (Host.callValidator FieldPercent.classValidator st
              (Str (Chars "abc")))
         = st).
Proof.
  split; [| split; [| split; [| split]]].
  - intros t v H. apply classValidator_percent_finite; [discriminate | exact H].
  - intros v. apply classValidator_percent_finite; [discriminate |].
    apply parseFloat_Num.
  - apply classValidator_percent_finite; [discriminate | exact parseFloat_400].
  - unfold FieldPercent.classValidator. rewrite parseFloat_abc. reflexivity.
  - intros st. unfold Host.callValidator, FieldPercent.classValidator.
    rewrite parseFloat_abc. reflexivity.
Qed.

Lemma percent_classValidator_identity_witness :
  parseFloat (Str (Chars "400") || Num (Fin 0))%js = Fin 400
  /\ FieldPercent.classValidator (Str (Chars "400")) = Str (Decimal (Fin 400)).
Proof.
  split.
  - exact parseFloat_400.
  - apply (proj1 percent_classValidator_identity (Chars "400") 400).
    exact parseFloat_400.
Defined.

(** C10.  Both validators reject text exactly when [parseFloat], applied
    as in the code to [text || 0], gives [NaN].  So "12abc" is accepted
    as its numeric prefix 12, and the empty string as 0. *)
Theorem classValidator_rejects_iff_NaN :
  (forall t : str,
      FieldUntiangle.classValidator (Str t) = Null
      <-> Js.isNaN (parseFloat (Str t || Num (Fin 0))%js) = true)
  /\ (forall t : str,
         FieldPercent.classValidator (Str t) = Null
         <-> Js.isNaN (parseFloat (Str t || Num (Fin 0))%js) = true)
  /\ FieldUntiangle.classValidator (Str (Chars "12abc"))
     = Str (Decimal (Fin 12))
  /\ FieldPercent.classValidator (Str (Chars "12abc"))
     = Str (Decimal (Fin 12))
  /\ FieldUntiangle.classValidator (Str (Chars "")) = Str (Decimal (Fin 0))
  /\ FieldPercent.classValidator (Str (Chars "")) = Str (Decimal (Fin 0)).
Proof.
  split; [intros t; split | split; [intros t; split | split; [| split; [| split]]]].
  - rewrite classValidator_untiangle_Str. cbn zeta.
    destruct (Js.isNaN _); [reflexivity | discriminate].
  - rewrite classValidator_untiangle_Str. cbn zeta.
    intros H. rewrite H. reflexivity.
  - unfold FieldPercent.classValidator.
    destruct (Js.isNaN _); [reflexivity | discriminate].
  - unfold FieldPercent.classValidator. intros H. rewrite H. reflexivity.
  - rewrite (classValidator_untiangle_finite _ 12 parseFloat_12abc).
    unfold Spec.normalize. rewrite Rrem_small by lra. decide_R. reflexivity.
  - apply classValidator_percent_finite; [discriminate | exact parseFloat_12abc].
  - rewrite (classValidator_untiangle_finite _ 0 parseFloat_empty).
    unfold Spec.normalize. rewrite Rrem_small by lra. decide_R. reflexivity.
  - apply classValidator_percent_finite; [discriminate | exact parseFloat_empty].
Qed.

(** ** The pointer *)

Lemma HALF_untiangle : FieldUntiangle.HALF = Fin 60.
Proof.
  unfold FieldUntiangle.HALF. cbn [Js.div]. decide_R. f_equal. lra.
Qed.

Lemma HALF_percent : FieldPercent.HALF = Fin 60.
Proof. exact HALF_untiangle. Qed.

Lemma RADIUS_untiangle : FieldUntiangle.RADIUS = Fin 47.
Proof.
  unfold FieldUntiangle.RADIUS. rewrite HALF_untiangle.
  cbn. f_equal. lra.
Qed.

Lemma RADIUS_percent : FieldPercent.RADIUS = Fin 47.
Proof. exact RADIUS_untiangle. Qed.

Lemma pointer_dx_Fin (e : MouseEvent) :
  Gauge.pointer_dx (Fin 60) e = Fin (clientX e - bBox_left e - 60).
Proof. reflexivity. Qed.

Lemma pointer_dy_Fin (e : MouseEvent) :
  Gauge.pointer_dy (Fin 60) e = Fin (clientY e - bBox_top e - 60).
Proof. reflexivity. Qed.

(** The arc tangent of the slope, by where the pointer is. *)
Lemma atan_slope (dx dy : R) :
  Math.atan (- Fin dy / Fin dx)%js =
  if Reqb dx 0 then
    if Reqb dy 0 then NaN
    else if Rltb dy 0 then Fin (PI / 2) else Fin (- (PI / 2))
  else Fin (atan (- dy / dx)).
Proof.
  cbn [Js.neg Js.div]. unfold Reqb, Rltb.
  destruct (Req_dec_T dx 0) as [Hx | Hx]; [| reflexivity].
  destruct (Req_dec_T (- dy) 0) as [Hy | Hy];
    destruct (Req_dec_T dy 0) as [Hy' | Hy']; try lra; [reflexivity |].
  destruct (Rlt_dec (- dy) 0); destruct (Rlt_dec dy 0); try lra; reflexivity.
Qed.

Lemma atan_slope_NaN (dx dy : R) :
  Js.isNaN (Math.atan (- Fin dy / Fin dx)%js) = true <-> dx = 0 /\ dy = 0.
Proof.
  rewrite atan_slope. unfold Reqb.
  destruct (Req_dec_T dx 0) as [Hx | Hx].
  - destruct (Req_dec_T dy 0) as [Hy | Hy].
    + simpl. tauto.
    + destruct (Rltb dy 0); simpl; split; intros H;
        try discriminate; destruct H; contradiction.
  - simpl. split; intros H; try discriminate; destruct H; contradiction.
Qed.

(** C4.  With the dial open, the angle [onMouseMove] takes from the
    pointer is [NaN] exactly when the pointer is at the centre of the
    dial, [dx] and [dy] both zero; the handler of either field then
    returns at once and the field is as it was. *)
Theorem onMouseMove_center_ignored (st : Field) (e : MouseEvent) :
  gauge_ st <> None ->
  let dx := clientX e - bBox_left e - 60 in
  let dy := clientY e - bBox_top e - 60 in
  Gauge.pointer_dx FieldUntiangle.HALF e = Fin dx
  /\ Gauge.pointer_dy FieldUntiangle.HALF e = Fin dy
  /\ Gauge.pointer_dx FieldPercent.HALF e = Fin dx
  /\ Gauge.pointer_dy FieldPercent.HALF e = Fin dy
  /\ (Js.isNaN (Math.atan (- Fin dy / Fin dx)%js) = true
      <-> dx = 0 /\ dy = 0)
  /\ (dx = 0 /\ dy = 0 ->
      FieldUntiangle.onMouseMove st e = Some st
      /\ FieldPercent.onMouseMove st e = Some st).
Proof.
  intros Hg dx dy.
  rewrite HALF_untiangle, HALF_percent, pointer_dx_Fin, pointer_dy_Fin.
  fold dx dy.
  repeat (split; [reflexivity |]).
  split; [apply atan_slope_NaN |].
  intros Hc. apply atan_slope_NaN in Hc.
  unfold FieldUntiangle.onMouseMove, FieldPercent.onMouseMove.
  rewrite HALF_untiangle, HALF_percent, pointer_dx_Fin, pointer_dy_Fin.
  fold dx dy. cbv zeta.
  destruct (gauge_ st); [| contradiction].
  rewrite Hc. split; reflexivity.
Qed.

Lemma onMouseMove_center_ignored_witness :
  FieldUntiangle.onMouseMove Sample.field0 Sample.at_center
  = Some Sample.field0
  /\ FieldPercent.onMouseMove Sample.field0 Sample.at_center
     = Some Sample.field0.
Proof.
  destruct (onMouseMove_center_ignored Sample.field0 Sample.at_center)
    as (_ & _ & _ & _ & _ & H).
  - discriminate.
  - apply H. simpl. split; lra.
Defined.

(** *** Degrees and radians *)

Lemma toDegrees_Fin (a : R) :
  goog_math.toDegrees (Fin a) = Fin (a * 180 / PI).
Proof.
  unfold goog_math.toDegrees, Math.PI. cbn [Js.mul Js.div].
  rewrite Reqb_false by apply PI_neq0. reflexivity.
Qed.

Lemma toRadians_Fin (a : R) :
  goog_math.toRadians (Fin a) = Fin (a * PI / 180).
Proof.
  unfold goog_math.toRadians, Math.PI. cbn [Js.mul Js.div].
  rewrite Reqb_false by lra. reflexivity.
Qed.

(** *** What the handlers leave in the field *)

Section Commit.

Variable CLOCKWISE : bool.
Variables OFFSET HALF RADIUS : number.

Lemma text_updateGraph_ (st : Field) :
  text_ (Gauge.updateGraph_ CLOCKWISE OFFSET HALF RADIUS st) = text_ st.
Proof.
  unfold Gauge.updateGraph_. destruct (gauge_ st); [| reflexivity].
  destruct (negb _); reflexivity.
Qed.

Lemma htmlInput_updateGraph_ (st : Field) :
  htmlInput_value (Gauge.updateGraph_ CLOCKWISE OFFSET HALF RADIUS st)
  = htmlInput_value st.
Proof.
  unfold Gauge.updateGraph_. destruct (gauge_ st); [| reflexivity].
  destruct (negb _); reflexivity.
Qed.

(** A value that is not [null] becomes the text of the field. *)
Lemma text_setValue (st : Field) (v : value) :
  v <> Null ->
  text_ (Gauge.setValue CLOCKWISE OFFSET HALF RADIUS st v) = ToString v.
Proof.
  intros Hv. unfold Gauge.setValue, Gauge.setText, Host.setText.
  destruct v; [contradiction | |];
    cbn [textElement_ with_text]; destruct (textElement_ st); cbn [negb];
    try reflexivity; unfold with_width; cbn [text_];
    rewrite text_updateGraph_; reflexivity.
Qed.

(** Committing a value leaves the inline input as it is. *)
Lemma htmlInput_setValue (st : Field) (v : value) :
  htmlInput_value (Gauge.setValue CLOCKWISE OFFSET HALF RADIUS st v)
  = htmlInput_value st.
Proof.
  unfold Gauge.setValue, Gauge.setText, Host.setText.
  destruct v; [reflexivity | |];
    cbn [textElement_ with_text]; destruct (textElement_ st); cbn [negb];
    try reflexivity; unfold with_width; cbn [htmlInput_value];
    rewrite htmlInput_updateGraph_; reflexivity.
Qed.

End Commit.

(** *** The angle of a pointer *)

Lemma atan_slope_Fin (dx dy : R) :
  ~ (dx = 0 /\ dy = 0) ->
  Math.atan (- Fin dy / Fin dx)%js = Fin (Real.slope_angle dx dy).
Proof.
  intros H. rewrite atan_slope. unfold Real.slope_angle, Reqb.
  destruct (Req_dec_T dx 0); [| reflexivity].
  destruct (Req_dec_T dy 0); [tauto |].
  destruct (Rltb dy 0); reflexivity.
Qed.

Lemma bearing_Fin (dx dy a : R) :
  Gauge.bearing (Fin dx) (Fin dy) (Fin a) = Fin (Real.bearing dx dy a).
Proof.
  unfold Gauge.bearing, Real.bearing. rewrite toDegrees_Fin.
  cbn [Js.lt Js.gt]. destruct (Rltb dx 0); [reflexivity |].
  destruct (Rltb 0 dy); reflexivity.
Qed.

Lemma degrees_Fin (cw : bool) (offset step dx dy : R) :
  step <> 0 ->
  ~ (dx = 0 /\ dy = 0) ->
  Gauge.degrees cw (Fin offset) (Fin step) (Fin dx) (Fin dy)
    (Fin (Real.slope_angle dx dy))
  = Fin (Real.quantize step (Real.unrounded cw offset dx dy)).
Proof.
  intros Hs Hc. unfold Gauge.degrees. rewrite bearing_Fin.
  unfold Real.quantize, Real.unrounded. cbn [Js.truthy].
  rewrite (Reqb_false step 0) by assumption. cbn [negb].
  destruct cw; cbn [Js.add Js.sub Js.neg Js.div Js.mul Math.round];
    rewrite (Reqb_false step 0) by assumption; reflexivity.
Qed.

(** Away from the centre, the angle of a pointer is finite and is the
    rounded one. *)
Lemma pointToDegrees_Fin (cw : bool) (offset step dx dy : R) :
  step <> 0 ->
  ~ (dx = 0 /\ dy = 0) ->
  Gauge.pointToDegrees cw (Fin offset) (Fin step) (Fin dx) (Fin dy)
  = Fin (Real.quantize step (Real.unrounded cw offset dx dy)).
Proof.
  intros Hs Hc. unfold Gauge.pointToDegrees. cbv zeta.
  rewrite atan_slope_Fin by assumption. cbn [Js.isNaN].
  apply degrees_Fin; assumption.
Qed.

Lemma untiangle_onMouseMove_unfold (st : Field) (e : MouseEvent) :
  gauge_ st <> None ->
  let dx := Gauge.pointer_dx FieldUntiangle.HALF e in
  let dy := Gauge.pointer_dy FieldUntiangle.HALF e in
  Js.isNaN (Math.atan (- dy / dx)%js) = false ->
  FieldUntiangle.onMouseMove st e =
  let angle :=
    Gauge.pointToDegrees FieldUntiangle.CLOCKWISE FieldUntiangle.OFFSET
      FieldUntiangle.ROUND dx dy in
  let v := Host.callValidator FieldUntiangle.classValidator st (Num angle) in
  Some (FieldUntiangle.setValue (with_htmlInput st v) v).
Proof.
  intros Hg dx dy Hn. unfold FieldUntiangle.onMouseMove, Gauge.pointToDegrees.
  destruct (gauge_ st); [| contradiction].
  fold dx dy. cbv zeta. rewrite Hn. reflexivity.
Qed.

Lemma percent_onMouseMove_unfold (st : Field) (e : MouseEvent) :
  gauge_ st <> None ->
  let dx := Gauge.pointer_dx FieldPercent.HALF e in
  let dy := Gauge.pointer_dy FieldPercent.HALF e in
  Js.isNaN (Math.atan (- dy / dx)%js) = false ->
  FieldPercent.onMouseMove st e =
  let angle :=
    Gauge.pointToDegrees FieldPercent.CLOCKWISE FieldPercent.OFFSET
      FieldPercent.ROUND dx dy in
  let tmp := (angle rem Fin 360)%js in
  Some (FieldPercent.setValue
          (with_htmlInput st (Num (Math.floor (tmp / FieldPercent.ROUND)%js)))
          (Num angle)).
Proof.
  intros Hg dx dy Hn. unfold FieldPercent.onMouseMove, Gauge.pointToDegrees.
  destruct (gauge_ st); [| contradiction].
  fold dx dy. cbv zeta. rewrite Hn. reflexivity.
Qed.

(** The value a handler works on, for a pointer away from the centre. *)
Lemma untiangle_pointer_angle (e : MouseEvent) :
  let dx := clientX e - bBox_left e - 60 in
  let dy := clientY e - bBox_top e - 60 in
  ~ (dx = 0 /\ dy = 0) ->
  Js.isNaN (Math.atan (- Gauge.pointer_dy FieldUntiangle.HALF e
                       / Gauge.pointer_dx FieldUntiangle.HALF e)%js) = false
  /\ Gauge.pointToDegrees FieldUntiangle.CLOCKWISE FieldUntiangle.OFFSET
       FieldUntiangle.ROUND (Gauge.pointer_dx FieldUntiangle.HALF e)
       (Gauge.pointer_dy FieldUntiangle.HALF e)
     = Fin (Real.quantize 15 (Real.unrounded false 90 dx dy)).
Proof.
  intros dx dy Hc.
  rewrite HALF_untiangle, pointer_dx_Fin, pointer_dy_Fin. fold dx dy.
  split.
  - rewrite atan_slope_Fin by assumption. reflexivity.
  - apply pointToDegrees_Fin; [lra | assumption].
Qed.

Lemma percent_pointer_angle (e : MouseEvent) :
  let dx := clientX e - bBox_left e - 60 in
  let dy := clientY e - bBox_top e - 60 in
  ~ (dx = 0 /\ dy = 0) ->
  Js.isNaN (Math.atan (- Gauge.pointer_dy FieldPercent.HALF e
                       / Gauge.pointer_dx FieldPercent.HALF e)%js) = false
  /\ Gauge.pointToDegrees FieldPercent.CLOCKWISE FieldPercent.OFFSET
       FieldPercent.ROUND (Gauge.pointer_dx FieldPercent.HALF e)
       (Gauge.pointer_dy FieldPercent.HALF e)
     = Fin (Real.quantize 3.565 (Real.unrounded true 90 dx dy)).
Proof.
  intros dx dy Hc.
  rewrite HALF_percent, pointer_dx_Fin, pointer_dy_Fin. fold dx dy.
  split.
  - rewrite atan_slope_Fin by assumption. reflexivity.
  - apply pointToDegrees_Fin; [lra | assumption].
Qed.

(** C7.  Away from the centre of the dial, the angle the untiangle
    handler works out from the pointer, rounding by 15 included and
    before any validator sees it, is an exact multiple of 15; that
    multiple is what the handler hands to the validator. *)
Theorem untiangle_pointer_multiple_of_15 :
  (forall dx dy : R,
      ~ (dx = 0 /\ dy = 0) ->
      exists k : Z,
        Gauge.pointToDegrees FieldUntiangle.CLOCKWISE FieldUntiangle.OFFSET
          FieldUntiangle.ROUND (Fin dx) (Fin dy)
        = Fin (IZR k * 15))
  /\ (forall (st : Field) (e : MouseEvent),
         gauge_ st <> None ->
         ~ (clientX e - bBox_left e - 60 = 0
            /\ clientY e - bBox_top e - 60 = 0) ->
         exists k : Z,
           FieldUntiangle.onMouseMove st e =
           let v :=
             Host.callValidator FieldUntiangle.classValidator st
               (Num (Fin (IZR k * 15))) in
           Some (FieldUntiangle.setValue (with_htmlInput st v) v)).
Proof.
  split.
  - intros dx dy Hc.
    exists (Zfloor (Real.unrounded false 90 dx dy / 15 + / 2)).
    apply pointToDegrees_Fin; [lra | assumption].
  - intros st e Hg Hc.
    destruct (untiangle_pointer_angle e Hc) as [Hn Ha].
    exists (Zfloor (Real.unrounded false 90 (clientX e - bBox_left e - 60)
                      (clientY e - bBox_top e - 60) / 15 + / 2)).
    rewrite (untiangle_onMouseMove_unfold st e Hg Hn). cbv zeta.
    rewrite Ha. reflexivity.
Qed.

Lemma untiangle_pointer_multiple_of_15_witness :
  exists k : Z,
    Gauge.pointToDegrees FieldUntiangle.CLOCKWISE FieldUntiangle.OFFSET
      FieldUntiangle.ROUND (Fin 50) (Fin 0)
    = Fin (IZR k * 15).
Proof.
  apply (proj1 untiangle_pointer_multiple_of_15 50 0).
  intros [H _]. lra.
Defined.

(** *** The pointer straight above the centre, on the percent field *)

Lemma unrounded_straight_up (dx dy : R) :
  dx = 0 -> dy < 0 -> Real.unrounded true 90 dx dy = 360.
Proof.
  intros -> Hy. unfold Real.unrounded, Real.bearing, Real.slope_angle.
  decide_R. field. apply PI_neq0.
Qed.

Lemma quantize_360 : Real.quantize 3.565 360 = 360.065.
Proof.
  unfold Real.quantize. rewrite (Zfloor_eq 101) by (simpl; lra). lra.
Qed.

Lemma Rrem_once (x y : R) : 0 < y -> y <= x < 2 * y -> Rrem x y = x - y.
Proof.
  intros Hy [Hl Hu]. unfold Rrem.
  assert (Hq : 1 <= x / y < 2).
  { split.
    - apply Rmult_le_reg_r with y; [lra |].
      replace (x / y * y) with x by (field; lra). lra.
    - apply Rmult_lt_reg_r with y; [lra |].
      replace (x / y * y) with x by (field; lra). lra. }
  unfold Ztrunc. rewrite Rltb_false by lra.
  rewrite (Zfloor_eq 1 (x / y)) by (simpl; lra). simpl. ring.
Qed.

Lemma percent_straight_up (st : Field) (e : MouseEvent) :
  gauge_ st <> None ->
  clientX e - bBox_left e - 60 = 0 ->
  clientY e - bBox_top e - 60 < 0 ->
  FieldPercent.onMouseMove st e
  = Some (FieldPercent.setValue (with_htmlInput st (Num (Fin 0)))
            (Num (Fin 360.065))).
Proof.
  intros Hg Hx Hy.
  assert (Hc : ~ (clientX e - bBox_left e - 60 = 0
                  /\ clientY e - bBox_top e - 60 = 0)) by lra.
  destruct (percent_pointer_angle e Hc) as [Hn Ha].
  rewrite (percent_onMouseMove_unfold st e Hg Hn). cbv zeta.
  rewrite Ha, (unrounded_straight_up _ _ Hx Hy), quantize_360.
  unfold FieldPercent.ROUND. cbn [Js.rem]. decide_R.
  rewrite Rrem_once by lra. cbn [Js.div]. decide_R. cbn [Math.floor].
  rewrite (Zfloor_eq 0) by (simpl; lra). reflexivity.
Qed.

(** C5, as the code has it.  A pointer straight above the centre
    ([dx = 0], [dy = -50]) is no degenerate case for the percent field
    (clockwise, offset 90): the quotient is [+Infinity], its arc tangent
    a quarter turn, the angle 360 and, rounded, 101 steps of 3.565.  The
    handler shows 0 in the inline input and commits 360.065; what it
    commits is a finite number and not [NaN]. *)
Theorem percent_straight_up_committed (st : Field) (e : MouseEvent) :
  gauge_ st <> None ->
  clientX e - bBox_left e - 60 = 0 ->
  clientY e - bBox_top e - 60 = -50 ->
  Math.atan (- Gauge.pointer_dy FieldPercent.HALF e
             / Gauge.pointer_dx FieldPercent.HALF e)%js = Fin (PI / 2)
  /\ Gauge.pointToDegrees FieldPercent.CLOCKWISE FieldPercent.OFFSET
       FieldPercent.ROUND (Gauge.pointer_dx FieldPercent.HALF e)
       (Gauge.pointer_dy FieldPercent.HALF e) = Fin (101 * 3.565)
  /\ exists st' : Field,
      FieldPercent.onMouseMove st e = Some st'
      /\ st' = FieldPercent.setValue (with_htmlInput st (Num (Fin 0)))
                 (Num (Fin 360.065))
      /\ text_ st' = Decimal (Fin 360.065)
      /\ htmlInput_value st' = Decimal (Fin 0).
Proof.
  intros Hg Hx Hy.
  assert (Hc : ~ (clientX e - bBox_left e - 60 = 0
                  /\ clientY e - bBox_top e - 60 = 0)) by lra.
  split; [| split].
  - rewrite HALF_percent, pointer_dx_Fin, pointer_dy_Fin, Hx, Hy.
    rewrite atan_slope. decide_R. reflexivity.
  - destruct (percent_pointer_angle e Hc) as [_ Ha]. rewrite Ha.
    rewrite unrounded_straight_up by lra. rewrite quantize_360.
    f_equal. lra.
  - eexists. split; [apply percent_straight_up; [assumption | lra | lra] |].
    split; [reflexivity |]. split.
    + unfold FieldPercent.setValue. rewrite text_setValue by discriminate.
      reflexivity.
    + unfold FieldPercent.setValue. rewrite htmlInput_setValue. reflexivity.
Qed.

Lemma percent_straight_up_committed_witness :
  exists st' : Field,
    FieldPercent.onMouseMove Sample.field0 Sample.straight_up = Some st'
    /\ text_ st' = Decimal (Fin 360.065).
Proof.
  destruct (percent_straight_up_committed Sample.field0 Sample.straight_up)
    as (_ & _ & st' & H1 & _ & H2 & _).
  - discriminate.
  - simpl. lra.
  - simpl. lra.
  - exists st'. split; assumption.
Defined.

(** C5, as stated, fails: the event straight above the centre is not
    ignored, the arc tangent is a number and the field changes. *)
Lemma percent_straight_up_not_ignored :
  Js.isNaN (Math.atan (- Gauge.pointer_dy FieldPercent.HALF Sample.straight_up
                       / Gauge.pointer_dx FieldPercent.HALF Sample.straight_up)%js)
  = false
  /\ FieldPercent.onMouseMove Sample.field0 Sample.straight_up
     <> Some Sample.field0.
Proof.
  split.
  - rewrite HALF_percent, pointer_dx_Fin, pointer_dy_Fin.
    rewrite atan_slope_Fin; [reflexivity |]. simpl. lra.
  - rewrite percent_straight_up; [| discriminate | simpl; lra | simpl; lra].
    intros H.
    apply (f_equal (option_map text_)) in H. cbn [option_map] in H.
    unfold FieldPercent.setValue in H.
    rewrite text_setValue in H by discriminate. discriminate H.
Qed.

(** *** What is shown and what is committed *)

(** With the rounding switched off, the angle of a pointer is the
    unrounded one. *)
Lemma pointToDegrees_raw (cw : bool) (offset dx dy : R) :
  ~ (dx = 0 /\ dy = 0) ->
  Gauge.pointToDegrees cw (Fin offset) (Fin 0) (Fin dx) (Fin dy)
  = Fin (Real.unrounded cw offset dx dy).
Proof.
  intros Hc. unfold Gauge.pointToDegrees. cbv zeta.
  rewrite atan_slope_Fin by assumption. cbn [Js.isNaN].
  unfold Gauge.degrees. rewrite bearing_Fin. cbn [Js.truthy].
  rewrite Reqb_true by reflexivity. cbn [negb].
  unfold Real.unrounded. destruct cw; reflexivity.
Qed.

Lemma unrounded_down_right : Real.unrounded false 90 1 1 = 225.
Proof.
  unfold Real.unrounded, Real.bearing, Real.slope_angle. decide_R.
  replace (- (1) / 1) with (Ropp 1) by lra.
  rewrite atan_opp, atan_1. field. apply PI_neq0.
Qed.

Lemma quantize_225 : Real.quantize 15 225 = 225.
Proof.
  unfold Real.quantize. rewrite (Zfloor_eq 15) by (simpl; lra). lra.
Qed.

Lemma normalize_225 : Spec.normalize 225 = -135.
Proof.
  unfold Spec.normalize. rewrite Rrem_small by lra. decide_R. lra.
Qed.

Lemma untiangle_down_right :
  FieldUntiangle.onMouseMove Sample.field0 Sample.down_right
  = Some (FieldUntiangle.setValue
            (with_htmlInput Sample.field0 (Str (Decimal (Fin (-135)))))
            (Str (Decimal (Fin (-135))))).
Proof.
  assert (Hc : ~ (clientX Sample.down_right - bBox_left Sample.down_right - 60 = 0
                  /\ clientY Sample.down_right - bBox_top Sample.down_right - 60 = 0))
    by (simpl; lra).
  destruct (untiangle_pointer_angle _ Hc) as [Hn Ha].
  assert (Hg : gauge_ Sample.field0 <> None) by discriminate.
  rewrite (untiangle_onMouseMove_unfold _ _ Hg Hn).
  cbv zeta. rewrite Ha.
  replace (clientX Sample.down_right - bBox_left Sample.down_right - 60)
    with 1 by (simpl; lra).
  replace (clientY Sample.down_right - bBox_top Sample.down_right - 60)
    with 1 by (simpl; lra).
  rewrite unrounded_down_right, quantize_225.
  unfold Host.callValidator.
  assert (Hv : Num (Fin 225) <> Null) by discriminate.
  rewrite (classValidator_untiangle_value _ 225 Hv (parseFloat_Num 225)).
  rewrite normalize_225. reflexivity.
Qed.

(** C9, as the code has it.  For a pointer away from the centre, the
    percent handler rounds the angle to a multiple [a] of 3.565, shows
    the floor of [(a % 360) / 3.565] in the inline input and commits
    [a] itself.  The untiangle handler rounds to a multiple [a] of 15
    and hands it to the validators; their verdict, when it is not
    [null], is both what the inline input shows and what is committed,
    and with no validator given to the field it is [a] wrapped into
    (-180, 180].  When the verdict is [null], the inline input is
    blanked and the field keeps its text. *)
Theorem onMouseMove_shown_and_committed (st : Field) (e : MouseEvent) :
  gauge_ st <> None ->
  ~ (clientX e - bBox_left e - 60 = 0 /\ clientY e - bBox_top e - 60 = 0) ->
  (exists (k : Z) (st' : Field),
      let a := IZR k * 3.565 in
      Gauge.pointToDegrees FieldPercent.CLOCKWISE FieldPercent.OFFSET
        FieldPercent.ROUND (Gauge.pointer_dx FieldPercent.HALF e)
        (Gauge.pointer_dy FieldPercent.HALF e) = Fin a
      /\ FieldPercent.onMouseMove st e = Some st'
      /\ htmlInput_value st'
         = Decimal (Fin (IZR (Zfloor (Rrem a 360 / 3.565))))
      /\ text_ st' = Decimal (Fin a))
  /\ (exists (k : Z) (st' : Field),
         let a := IZR k * 15 in
         let v :=
           Host.callValidator FieldUntiangle.classValidator st
             (Num (Fin a)) in
         Gauge.pointToDegrees FieldUntiangle.CLOCKWISE FieldUntiangle.OFFSET
           FieldUntiangle.ROUND (Gauge.pointer_dx FieldUntiangle.HALF e)
           (Gauge.pointer_dy FieldUntiangle.HALF e) = Fin a
         /\ FieldUntiangle.onMouseMove st e = Some st'
         /\ (v <> Null ->
             htmlInput_value st' = ToString v /\ text_ st' = ToString v)
         /\ (v = Null ->
             htmlInput_value st' = Chars "" /\ text_ st' = text_ st)
         /\ (validator_ st = None ->
             v = Str (Decimal (Fin (Spec.normalize a))))).
Proof.
  intros Hg Hc. split.
  - destruct (percent_pointer_angle e Hc) as [Hn Ha].
    eexists. eexists. cbv zeta.
    split; [exact Ha |].
    split; [apply (percent_onMouseMove_unfold st e Hg Hn) |].
    cbv zeta. unfold FieldPercent.setValue. rewrite Ha. split.
    + rewrite htmlInput_setValue. unfold FieldPercent.ROUND.
      cbn [Js.rem]. decide_R. cbn [Js.div]. decide_R. reflexivity.
    + rewrite text_setValue by discriminate. reflexivity.
  - destruct (untiangle_pointer_angle e Hc) as [Hn Ha].
    eexists. eexists. cbv zeta.
    split; [exact Ha |].
    split; [apply (untiangle_onMouseMove_unfold st e Hg Hn) |].
    cbv zeta. rewrite Ha. unfold FieldUntiangle.setValue.
    split; [| split].
    + intros Hv. rewrite htmlInput_setValue, text_setValue by assumption.
      split; [| reflexivity].
      destruct (Host.callValidator _ _ _); [contradiction | |]; reflexivity.
    + intros Hv. unfold Real.quantize. rewrite Hv. split; reflexivity.
    + intros Hu. unfold Host.callValidator. rewrite Hu.
      match goal with
      | |- context [FieldUntiangle.classValidator (Num (Fin ?a))] =>
          assert (Hv : Num (Fin a) <> Null) by discriminate;
          rewrite (classValidator_untiangle_value _ a Hv (parseFloat_Num a))
      end.
      reflexivity.
Qed.

Lemma onMouseMove_shown_and_committed_witness :
  exists (k : Z) (st' : Field),
    FieldPercent.onMouseMove Sample.field0 Sample.straight_up = Some st'
    /\ htmlInput_value st'
       = Decimal (Fin (IZR (Zfloor (Rrem (IZR k * 3.565) 360 / 3.565))))
    /\ text_ st' = Decimal (Fin (IZR k * 3.565)).
Proof.
  destruct (onMouseMove_shown_and_committed Sample.field0 Sample.straight_up)
    as [(k & st' & _ & H1 & H2 & H3) _].
  - discriminate.
  - simpl. lra.
  - exists k, st'. repeat split; assumption.
Defined.

(** C9, as stated, fails.  Straight above the centre the unrounded
    angle of the percent field is 360, whose quotient by 3.565 has floor
    100, and the rounded one is 360.065, with floor 101; the inline
    input shows 0.  Below and right of the centre the untiangle field
    rounds to 225, and shows and commits -135. *)
Lemma shown_is_not_floor_of_angle :
  (exists st' : Field,
      FieldPercent.onMouseMove Sample.field0 Sample.straight_up = Some st'
      /\ htmlInput_value st'
         <> Decimal
              (Math.floor
                 (Gauge.pointToDegrees FieldPercent.CLOCKWISE
                    FieldPercent.OFFSET (Fin 0)
                    (Gauge.pointer_dx FieldPercent.HALF Sample.straight_up)
                    (Gauge.pointer_dy FieldPercent.HALF Sample.straight_up)
                  / FieldPercent.ROUND)%js)
      /\ htmlInput_value st'
         <> Decimal
              (Math.floor
                 (Gauge.pointToDegrees FieldPercent.CLOCKWISE
                    FieldPercent.OFFSET FieldPercent.ROUND
                    (Gauge.pointer_dx FieldPercent.HALF Sample.straight_up)
                    (Gauge.pointer_dy FieldPercent.HALF Sample.straight_up)
                  / FieldPercent.ROUND)%js))
  /\ (exists st' : Field,
         FieldUntiangle.onMouseMove Sample.field0 Sample.down_right = Some st'
         /\ Gauge.pointToDegrees FieldUntiangle.CLOCKWISE
              FieldUntiangle.OFFSET FieldUntiangle.ROUND
              (Gauge.pointer_dx FieldUntiangle.HALF Sample.down_right)
              (Gauge.pointer_dy FieldUntiangle.HALF Sample.down_right)
            = Fin 225
         /\ text_ st' = Decimal (Fin (-135))
         /\ htmlInput_value st' = Decimal (Fin (-135))).
Proof.
  split.
  - eexists. split.
    { apply percent_straight_up; [discriminate | simpl; lra | simpl; lra]. }
    unfold FieldPercent.setValue. rewrite htmlInput_setValue.
    rewrite HALF_percent, pointer_dx_Fin, pointer_dy_Fin.
    assert (Hc : ~ (clientX Sample.straight_up - bBox_left Sample.straight_up
                    - 60 = 0
                    /\ clientY Sample.straight_up - bBox_top Sample.straight_up
                       - 60 = 0)) by (simpl; lra).
    unfold FieldPercent.ROUND at 1 3, FieldPercent.OFFSET, FieldPercent.CLOCKWISE.
    rewrite (pointToDegrees_raw _ _ _ _ Hc).
    unfold FieldPercent.ROUND.
    rewrite (pointToDegrees_Fin true 90 3.565 _ _ ltac:(lra) Hc).
    rewrite unrounded_straight_up by (simpl; lra). rewrite quantize_360.
    cbn [Js.div]. decide_R. cbn [Math.floor with_htmlInput htmlInput_value ToString].
    rewrite (Zfloor_eq 100 (360 / 3.565)) by (simpl; lra).
    rewrite (Zfloor_eq 101 (360.065 / 3.565)) by (simpl; lra).
    split; intros H; injection H as H; lra.
  - eexists. split; [apply untiangle_down_right |].
    split; [| split].
    + assert (Hc : ~ (clientX Sample.down_right - bBox_left Sample.down_right
                      - 60 = 0
                      /\ clientY Sample.down_right - bBox_top Sample.down_right
                         - 60 = 0)) by (simpl; lra).
      destruct (untiangle_pointer_angle _ Hc) as [_ Ha]. rewrite Ha.
      replace (clientX Sample.down_right - bBox_left Sample.down_right - 60)
        with 1 by (simpl; lra).
      replace (clientY Sample.down_right - bBox_top Sample.down_right - 60)
        with 1 by (simpl; lra).
      rewrite unrounded_down_right, quantize_225. reflexivity.
    + unfold FieldUntiangle.setValue. rewrite text_setValue by discriminate.
      reflexivity.
    + unfold FieldUntiangle.setValue. rewrite htmlInput_setValue. reflexivity.
Qed.

(** ** The dial *)

(** What [updateGraph_] draws for a finite value. *)
Lemma updateGraph_finite (cw : bool) (offset half radius : R)
    (st : Field) (dial : Dial) (v : R) :
  gauge_ st = Some dial ->
  Number (text_ st) = Fin v ->
  Gauge.updateGraph_ cw (Fin offset) (Fin half) (Fin radius) st
  = with_gauge st (Some (Real.drawn cw offset half radius v)).
Proof.
  intros Hg Hv. unfold Gauge.updateGraph_, Host.getText. rewrite Hg, Hv.
  cbn [Js.rem]. decide_R. cbn [Js.add].
  fold (Real.effective offset v).
  rewrite !toRadians_Fin. cbn [Js.isNaN negb].
  unfold Real.drawn, Real.handle_angle.
  destruct cw; cbn [Js.mul Js.sub Js.add Js.neg Math.cos Math.sin Math.abs
                    Js.lt Js.gt Js.of_bool app];
    reflexivity.
Qed.

Lemma OFFSET_untiangle : FieldUntiangle.OFFSET = Fin 90.
Proof. reflexivity. Qed.

Lemma untiangle_updateGraph_finite (st : Field) (dial : Dial) (v : R) :
  gauge_ st = Some dial ->
  Number (text_ st) = Fin v ->
  FieldUntiangle.updateGraph_ st
  = with_gauge st (Some (Real.drawn false 90 60 47 v)).
Proof.
  intros Hg Hv. unfold FieldUntiangle.updateGraph_.
  rewrite HALF_untiangle, RADIUS_untiangle.
  apply (updateGraph_finite false 90 60 47 st dial v Hg Hv).
Qed.

Lemma percent_updateGraph_finite (st : Field) (dial : Dial) (v : R) :
  gauge_ st = Some dial ->
  Number (text_ st) = Fin v ->
  FieldPercent.updateGraph_ st
  = with_gauge st (Some (Real.drawn true 90 60 47 v)).
Proof.
  intros Hg Hv. unfold FieldPercent.updateGraph_.
  rewrite HALF_percent, RADIUS_percent.
  apply (updateGraph_finite true 90 60 47 st dial v Hg Hv).
Qed.

(** C6.  When [updateGraph_] draws the arc for a finite value [v], with
    [effective = v % 360 + offset], the large-arc flag it writes (the
    piece after [" 0 "]) is 1 exactly when [|effective - offset| > 180]
    and 0 otherwise, and the sweep flag (the piece after the next
    blank) is [Number(CLOCKWISE)], turned into [1 - Number(CLOCKWISE)]
    exactly when [effective < offset]. *)
Theorem arc_flags (st : Field) (dial : Dial) (v : R) :
  gauge_ st = Some dial ->
  Number (text_ st) = Fin v ->
  let effective := Rrem v 360 + 90 in
  let largeFlag :=
    if Rltb 180 (Rabs (effective - 90)) then Fin 1 else Fin 0 in
  let sweepFlag (clockwise : bool) :=
    if Rltb effective 90 then (Fin 1 - Js.of_bool clockwise)%js
    else Js.of_bool clockwise in
  (exists (d : Dial) (path : list piece),
      gauge_ (FieldUntiangle.updateGraph_ st) = Some d
      /\ gauge_d d = Some path
      /\ nth_error path 12 = Some (Txt " 0 ")
      /\ nth_error path 13 = Some (Val largeFlag)
      /\ nth_error path 15 = Some (Val (sweepFlag FieldUntiangle.CLOCKWISE)))
  /\ (exists (d : Dial) (path : list piece),
         gauge_ (FieldPercent.updateGraph_ st) = Some d
         /\ gauge_d d = Some path
         /\ nth_error path 12 = Some (Txt " 0 ")
         /\ nth_error path 13 = Some (Val largeFlag)
         /\ nth_error path 15 = Some (Val (sweepFlag FieldPercent.CLOCKWISE))).
Proof.
  intros Hg Hv effective largeFlag sweepFlag. split.
  - rewrite (untiangle_updateGraph_finite st dial v Hg Hv).
    eexists. eexists. repeat split; reflexivity.
  - rewrite (percent_updateGraph_finite st dial v Hg Hv).
    eexists. eexists. repeat split; reflexivity.
Qed.

Lemma arc_flags_witness :
  exists (d : Dial) (path : list piece),
    gauge_ (FieldUntiangle.updateGraph_
              (with_text Sample.field0 (Decimal (Fin 270)))) = Some d
    /\ gauge_d d = Some path
    /\ nth_error path 13
       = Some (Val (if Rltb 180 (Rabs (Rrem 270 360 + 90 - 90))
                    then Fin 1 else Fin 0)).
Proof.
  destruct (arc_flags (with_text Sample.field0 (Decimal (Fin 270)))
              blank_dial 270)
    as [(d & path & H1 & H2 & _ & H3 & _) _].
  - reflexivity.
  - reflexivity.
  - exists d, path. repeat split; assumption.
Defined.

(** *** Opening the editor *)

(** Drawing twice draws the same dial. *)
Lemma gauge_updateGraph_again (cw : bool) (OFFSET HALF RADIUS : number)
    (st : Field) (w : number) :
  gauge_ (Gauge.updateGraph_ cw OFFSET HALF RADIUS
            (with_width (Gauge.updateGraph_ cw OFFSET HALF RADIUS st) w))
  = gauge_ (Gauge.updateGraph_ cw OFFSET HALF RADIUS st).
Proof.
  unfold Gauge.updateGraph_, Host.getText.
  destruct (gauge_ st) as [dial |] eqn:Hg.
  - destruct (negb (Js.isNaN _)) eqn:Hn; cbn; rewrite Hn; reflexivity.
  - cbn [gauge_ with_width]. rewrite Hg. cbn [gauge_ with_width].
    exact Hg.
Qed.

(** C8.  Opening the editor of a percent field commits
    [Number(text) * ROUND], with [ROUND = 3.565], on the blank dial just
    built, and the dial the editor shows is the drawing of that rescaled
    value.  Opening the editor of an untiangle field keeps the text and
    draws it as it is. *)
Theorem showEditor_rescales_percent (noFocus : bool) (st : Field) :
  let reset_percent := (Number (text_ st) * Fin 3.565)%js in
  FieldPercent.showEditor_ noFocus st
  = FieldPercent.updateGraph_
      (FieldPercent.setValue (with_gauge st (Some blank_dial))
         (Num reset_percent))
  /\ text_ (FieldPercent.showEditor_ noFocus st) = Decimal reset_percent
  /\ Number (text_ (FieldPercent.showEditor_ noFocus st)) = reset_percent
  /\ gauge_ (FieldPercent.showEditor_ noFocus st)
     = gauge_ (FieldPercent.updateGraph_
                 (with_text (with_gauge st (Some blank_dial))
                    (Decimal reset_percent)))
  /\ FieldUntiangle.showEditor_ noFocus st
     = FieldUntiangle.updateGraph_ (with_gauge st (Some blank_dial))
  /\ text_ (FieldUntiangle.showEditor_ noFocus st) = text_ st.
Proof.
  intros reset_percent.
  assert (Ht : text_ (FieldPercent.showEditor_ noFocus st)
               = Decimal reset_percent).
  { unfold FieldPercent.showEditor_, FieldPercent.updateGraph_,
      FieldPercent.setValue. cbv zeta.
    rewrite text_updateGraph_, text_setValue by discriminate. reflexivity. }
  split; [reflexivity |]. split; [exact Ht |].
  split; [rewrite Ht; reflexivity |].
  split; [| split].
  - unfold FieldPercent.showEditor_, FieldPercent.updateGraph_,
      FieldPercent.setValue, Gauge.setValue, Gauge.setText, Host.setText,
      Host.showEditor_, Host.getText.
    cbv zeta. cbn [text_ with_gauge textElement_ with_text].
    fold reset_percent.
    destruct (textElement_ st); cbn [negb].
    + apply gauge_updateGraph_again.
    + reflexivity.
  - reflexivity.
  - unfold FieldUntiangle.showEditor_, FieldUntiangle.updateGraph_.
    cbv zeta. rewrite text_updateGraph_. reflexivity.
Qed.

(** ** From the handle back to the value *)

(** Sine and cosine are periodic over the integers. *)
Lemma cos_period_Z (x : R) (k : Z) : cos (x + 2 * IZR k * PI) = cos x.
Proof.
  destruct (Z_le_gt_dec 0 k) as [Hk | Hk].
  - rewrite <- (Z2Nat.id k Hk), <- INR_IZR_INZ. apply cos_period.
  - rewrite <- (cos_period (x + 2 * IZR k * PI) (Z.to_nat (- k))).
    rewrite INR_IZR_INZ, Z2Nat.id by lia. rewrite opp_IZR.
    f_equal. ring.
Qed.

Lemma sin_period_Z (x : R) (k : Z) : sin (x + 2 * IZR k * PI) = sin x.
Proof.
  destruct (Z_le_gt_dec 0 k) as [Hk | Hk].
  - rewrite <- (Z2Nat.id k Hk), <- INR_IZR_INZ. apply sin_period.
  - rewrite <- (sin_period (x + 2 * IZR k * PI) (Z.to_nat (- k))).
    rewrite INR_IZR_INZ, Z2Nat.id by lia. rewrite opp_IZR.
    f_equal. ring.
Qed.

(** Every angle has a representative within one turn. *)
Lemma one_turn (theta : R) :
  exists (k : Z) (rho : R), rho = theta + 2 * IZR k * PI /\ 0 <= rho < 2 * PI.
Proof.
  pose proof PI_RGT_0 as Hpi.
  pose proof (Zfloor_bound (theta / (2 * PI))) as [Hl Hu].
  exists (- Zfloor (theta / (2 * PI)))%Z, (theta + 2 * IZR (- Zfloor (theta / (2 * PI))) * PI).
  split; [reflexivity |]. rewrite opp_IZR.
  assert (Ht : theta = theta / (2 * PI) * (2 * PI)) by (field; lra).
  split; nra.
Qed.

Lemma slope_is_tan (rho radius : R) :
  0 < radius -> cos rho <> 0 ->
  - - (sin rho * radius) / (cos rho * radius) = tan rho.
Proof. intros Hr Hc. unfold tan. field. lra. Qed.

Lemma tan_half_turn (rho : R) : cos rho <> 0 -> tan (rho - PI) = tan rho.
Proof.
  intros Hc. unfold tan.
  assert (Hs : sin rho = - sin (rho - PI)).
  { rewrite <- neg_sin. f_equal. ring. }
  assert (Hc' : cos rho = - cos (rho - PI)).
  { rewrite <- neg_cos. f_equal. ring. }
  rewrite Hs, Hc'. field. rewrite Hc' in Hc. lra.
Qed.

Lemma tan_full_turn (rho : R) : tan (rho - 2 * PI) = tan rho.
Proof.
  unfold tan.
  replace (sin rho) with (sin (rho - 2 * PI + 2 * INR 1 * PI))
    by (f_equal; simpl; ring).
  replace (cos rho) with (cos (rho - 2 * PI + 2 * INR 1 * PI))
    by (f_equal; simpl; ring).
  rewrite sin_period, cos_period. reflexivity.
Qed.

(** Within one turn, the bearing of the point at angle [rho] on a
    circle about the centre is [rho] in degrees. *)
Lemma bearing_within_turn (rho radius : R) :
  0 < radius -> 0 <= rho < 2 * PI ->
  let dx := cos rho * radius in
  let dy := - (sin rho * radius) in
  Real.bearing dx dy (Real.slope_angle dx dy) = rho * 180 / PI.
Proof.
  intros Hr [H0 H2] dx dy. pose proof PI_RGT_0 as Hpi.
  unfold Real.bearing, Real.slope_angle. cbv zeta.
  destruct (Rtotal_order rho (PI / 2)) as [H | [H | H]].
  - (* first quadrant *)
    assert (Hc : 0 < cos rho) by (apply cos_gt_0; lra).
    assert (Hs : 0 <= sin rho) by (apply sin_ge_0; lra).
    assert (0 < dx) by (unfold dx; nra).
    assert (dy <= 0) by (unfold dy; nra).
    decide_R. unfold dx, dy. rewrite slope_is_tan by lra.
    rewrite atan_tan by lra. reflexivity.
  - (* straight up *)
    assert (Hdx : dx = 0) by (unfold dx; rewrite H, cos_PI2; ring).
    assert (Hdy : dy < 0) by (unfold dy; rewrite H, sin_PI2; lra).
    rewrite Hdx. decide_R. rewrite H. reflexivity.
  - destruct (Rtotal_order rho (3 * (PI / 2))) as [H' | [H' | H']].
    + (* second and third quadrants *)
      assert (Hc : cos rho < 0) by (apply cos_lt_0; lra).
      assert (dx < 0) by (unfold dx; nra).
      decide_R. unfold dx, dy. rewrite slope_is_tan by lra.
      rewrite <- tan_half_turn by lra. rewrite atan_tan by lra.
      field. lra.
    + (* straight down *)
      assert (Hdx : dx = 0) by (unfold dx; rewrite H', cos_3PI2; ring).
      assert (Hdy : 0 < dy) by (unfold dy; rewrite H', sin_3PI2; lra).
      rewrite Hdx. decide_R. rewrite H'. field. lra.
    + (* fourth quadrant *)
      assert (Hc : 0 < cos rho).
      { replace (cos rho) with (cos (rho - 2 * PI + 2 * INR 1 * PI))
          by (f_equal; simpl; ring).
        rewrite cos_period. apply cos_gt_0; lra. }
      assert (Hs : sin rho < 0) by (apply sin_lt_0; lra).
      assert (0 < dx) by (unfold dx; nra).
      assert (0 < dy) by (unfold dy; nra).
      decide_R. unfold dx, dy. rewrite slope_is_tan by lra.
      rewrite <- tan_full_turn. rewrite atan_tan by lra.
      field. lra.
Qed.

(** The bearing of the point at any angle is that angle in degrees, up
    to whole turns; the point is off the centre. *)
Lemma bearing_of_angle (theta radius : R) :
  0 < radius ->
  let dx := cos theta * radius in
  let dy := - (sin theta * radius) in
  ~ (dx = 0 /\ dy = 0)
  /\ exists k : Z,
      Real.bearing dx dy (Real.slope_angle dx dy)
      = theta * 180 / PI + 360 * IZR k.
Proof.
  intros Hr dx dy. split.
  - intros [Hx Hy]. pose proof (sin2_cos2 theta) as Hsc. unfold Rsqr in Hsc.
    unfold dx in Hx. unfold dy in Hy.
    assert (cos theta = 0) by nra. assert (sin theta = 0) by nra. nra.
  - destruct (one_turn theta) as (k & rho & Hrho & Hrange).
    exists k. unfold dx, dy.
    rewrite <- (cos_period_Z theta k), <- (sin_period_Z theta k), <- Hrho.
    rewrite (bearing_within_turn rho radius Hr Hrange).
    rewrite Hrho. field. apply PI_neq0.
Qed.

(** The unrounded angle of the handle drawn for [v] is [v], up to whole
    turns. *)
Lemma unrounded_of_handle (cw : bool) (offset radius v : R) :
  0 < radius ->
  let theta := Real.handle_angle cw offset v in
  let dx := cos theta * radius in
  let dy := - (sin theta * radius) in
  ~ (dx = 0 /\ dy = 0)
  /\ exists k : Z, Real.unrounded cw offset dx dy = v + 360 * IZR k.
Proof.
  intros Hr theta dx dy.
  destruct (bearing_of_angle theta radius Hr) as [Hc [k Hk]].
  split; [exact Hc |].
  destruct (Rrem_multiple v 360) as [j Hj].
  unfold Real.unrounded. fold dx dy in Hk |- *. rewrite Hk.
  unfold theta, Real.handle_angle, Real.effective. rewrite Hj.
  pose proof PI_neq0 as Hpi.
  destruct cw; cbv beta iota zeta.
  - exists (j + 1 - k)%Z. rewrite minus_IZR, plus_IZR. field. exact Hpi.
  - exists (j + k)%Z. rewrite plus_IZR. field. exact Hpi.
Qed.

(** Rounding to a step moves a value by half a step at most. *)
Lemma quantize_near (step x : R) :
  0 < step -> Rabs (Real.quantize step x - x) <= step / 2.
Proof.
  intros Hs. unfold Real.quantize.
  pose proof (Zfloor_bound (x / step + / 2)) as [Hl Hu].
  assert (Hx : x = x / step * step) by (field; lra).
  apply Rabs_le. split; nra.
Qed.

(** The handle drawn for [v], read back as a pointer. *)
Lemma round_trip (cw : bool) (offset step v left top : R) :
  0 < step ->
  let x2 := 60 + cos (Real.handle_angle cw offset v) * 47 in
  let y2 := 60 - sin (Real.handle_angle cw offset v) * 47 in
  let e := mkEvent (left + x2) (top + y2) left top in
  exists (a : R) (k j : Z),
    Gauge.pointToDegrees cw (Fin offset) (Fin step)
      (Gauge.pointer_dx (Fin 60) e) (Gauge.pointer_dy (Fin 60) e) = Fin a
    /\ a = IZR j * step
    /\ Rabs (a - (v + 360 * IZR k)) <= step / 2.
Proof.
  intros Hs x2 y2 e.
  destruct (unrounded_of_handle cw offset 47 v ltac:(lra)) as [Hc [k Hk]].
  rewrite pointer_dx_Fin, pointer_dy_Fin. cbn [clientX clientY bBox_left bBox_top e].
  replace (left + x2 - left - 60)
    with (cos (Real.handle_angle cw offset v) * 47) by (unfold x2; ring).
  replace (top + y2 - top - 60)
    with (- (sin (Real.handle_angle cw offset v) * 47)) by (unfold y2; ring).
  rewrite pointToDegrees_Fin by (assumption || lra).
  rewrite Hk.
  exists (Real.quantize step (v + 360 * IZR k)), k,
    (Zfloor ((v + 360 * IZR k) / step + / 2)).
  split; [reflexivity |]. split; [reflexivity |].
  apply quantize_near, Hs.
Qed.

(** C2.  Draw the handle for a finite value [v] and put the pointer on
    it, wherever the dial is on the screen: the angle the handler takes
    from that pointer is a multiple of the rounding step, and lies
    within half a step of [v] plus a whole number of turns.  This holds
    for the untiangle field (counterclockwise, step 15) and for the
    percent field (clockwise, step 3.565), both with offset 90. *)
Theorem handle_round_trip (st : Field) (dial : Dial) (v left top : R) :
  gauge_ st = Some dial ->
  Number (text_ st) = Fin v ->
  (exists (d : Dial) (x2 y2 a : R) (k j : Z),
      gauge_ (FieldUntiangle.updateGraph_ st) = Some d
      /\ handle_translate d = Some (Fin x2, Fin y2)
      /\ x2 = 60 + cos (Rrem v 360 * PI / 180 + 90 * PI / 180) * 47
      /\ y2 = 60 - sin (Rrem v 360 * PI / 180 + 90 * PI / 180) * 47
      /\ (let e := mkEvent (left + x2) (top + y2) left top in
          Gauge.pointToDegrees FieldUntiangle.CLOCKWISE FieldUntiangle.OFFSET
            FieldUntiangle.ROUND (Gauge.pointer_dx FieldUntiangle.HALF e)
            (Gauge.pointer_dy FieldUntiangle.HALF e) = Fin a)
      /\ a = IZR j * 15
      /\ Rabs (a - (v + 360 * IZR k)) <= 15 / 2)
  /\ (exists (d : Dial) (x2 y2 a : R) (k j : Z),
         gauge_ (FieldPercent.updateGraph_ st) = Some d
         /\ handle_translate d = Some (Fin x2, Fin y2)
         /\ x2 = 60 + cos (90 * PI / 180 - Rrem v 360 * PI / 180) * 47
         /\ y2 = 60 - sin (90 * PI / 180 - Rrem v 360 * PI / 180) * 47
         /\ (let e := mkEvent (left + x2) (top + y2) left top in
             Gauge.pointToDegrees FieldPercent.CLOCKWISE FieldPercent.OFFSET
               FieldPercent.ROUND (Gauge.pointer_dx FieldPercent.HALF e)
               (Gauge.pointer_dy FieldPercent.HALF e) = Fin a)
         /\ a = IZR j * 3.565
         /\ Rabs (a - (v + 360 * IZR k)) <= 3.565 / 2).
Proof.
  intros Hg Hv. split.
  - rewrite (untiangle_updateGraph_finite st dial v Hg Hv).
    destruct (round_trip false 90 15 v left top ltac:(lra))
      as (a & k & j & Ha & Hj & Hk).
    exists (Real.drawn false 90 60 47 v).
    exists (60 + cos (Real.handle_angle false 90 v) * 47).
    exists (60 - sin (Real.handle_angle false 90 v) * 47).
    exists a, k, j.
    split; [reflexivity |]. split; [reflexivity |].
    split; [unfold Real.handle_angle, Real.effective; do 3 f_equal; field |].
    split; [unfold Real.handle_angle, Real.effective; do 3 f_equal; field |].
    rewrite HALF_untiangle. repeat split; assumption.
  - rewrite (percent_updateGraph_finite st dial v Hg Hv).
    destruct (round_trip true 90 3.565 v left top ltac:(lra))
      as (a & k & j & Ha & Hj & Hk).
    exists (Real.drawn true 90 60 47 v).
    exists (60 + cos (Real.handle_angle true 90 v) * 47).
    exists (60 - sin (Real.handle_angle true 90 v) * 47).
    exists a, k, j.
    split; [reflexivity |]. split; [reflexivity |].
    split; [unfold Real.handle_angle, Real.effective; do 3 f_equal; field |].
    split; [unfold Real.handle_angle, Real.effective; do 3 f_equal; field |].
    rewrite HALF_percent. repeat split; assumption.
Qed.

Lemma handle_round_trip_witness :
  exists (a : R) (k j : Z),
    (let x2 := 60 + cos (Rrem 30 360 * PI / 180 + 90 * PI / 180) * 47 in
     let y2 := 60 - sin (Rrem 30 360 * PI / 180 + 90 * PI / 180) * 47 in
     let e := mkEvent (0 + x2) (0 + y2) 0 0 in
     Gauge.pointToDegrees FieldUntiangle.CLOCKWISE FieldUntiangle.OFFSET
       FieldUntiangle.ROUND (Gauge.pointer_dx FieldUntiangle.HALF e)
       (Gauge.pointer_dy FieldUntiangle.HALF e) = Fin a)
    /\ a = IZR j * 15
    /\ Rabs (a - (30 + 360 * IZR k)) <= 15 / 2.
Proof.
  destruct (handle_round_trip
              (with_text Sample.field0 (Decimal (Fin 30))) blank_dial 30 0 0)
    as [(d & x2 & y2 & a & k & j & _ & _ & Hx & Hy & Ha & Hj & Hk) _].
  - reflexivity.
  - reflexivity.
  - exists a, k, j. subst x2 y2. repeat split; assumption.
Defined.

(** * Further properties *)

(** ** More on the validators *)

Lemma Rrem_small_neg (x y : R) : - y < x <= 0 -> Rrem x y = x.
Proof.
  intros [Hl Hu]. unfold Rrem.
  destruct (Req_dec_T x 0) as [-> | Hx].
  - unfold Rdiv. rewrite Rmult_0_l. unfold Ztrunc. rewrite Rltb_false by lra.
    rewrite (Zfloor_eq 0 0) by (simpl; lra). simpl. ring.
  - assert (Hy : 0 < y) by lra.
    assert (Hq : -1 < x / y < 0).
    { split.
      - apply Rmult_lt_reg_r with y; [lra |].
        replace (x / y * y) with x by (field; lra). lra.
      - apply Rdiv_neg_pos; lra. }
    unfold Ztrunc. rewrite Rltb_true by lra.
    rewrite (Zfloor_eq 0 (- (x / y))) by (simpl; lra). simpl. ring.
Qed.

Lemma normalize_fixed (v : R) : -180 < v <= 180 -> Spec.normalize v = v.
Proof.
  intros [Hl Hu]. unfold Spec.normalize.
  destruct (Rlt_dec v 0) as [Hn | Hn].
  - rewrite Rrem_small_neg by lra. decide_R. lra.
  - rewrite Rrem_small by lra. decide_R. reflexivity.
Qed.

Lemma normalize_congruent (v : R) :
  exists k : Z, Spec.normalize v = v + 360 * IZR k.
Proof.
  destruct (Rrem_multiple v 360) as [j Hj]. unfold Spec.normalize.
  rewrite Hj.
  destruct (Rltb (v + 360 * IZR j) 0);
    match goal with |- context [Rltb 180 ?x] => destruct (Rltb 180 x) end.
  - exists j. lra.
  - exists (j + 1)%Z. rewrite plus_IZR. lra.
  - exists (j - 1)%Z. rewrite minus_IZR. lra.
  - exists j. lra.
Qed.

(** Two reals a whole number of turns apart and less than a turn apart
    are the same. *)
Lemma turns_apart (x y : R) (k : Z) :
  x = y + 360 * IZR k -> -360 < x - y < 360 -> x = y.
Proof.
  intros H Hd.
  assert (Hk : k = 0%Z).
  { assert (-1 < IZR k < 1) as [H1 H2] by lra.
    apply lt_IZR in H1. apply lt_IZR in H2. lia. }
  subst k. lra.
Qed.

Lemma normalize_periodic (v : R) (k : Z) :
  Spec.normalize (v + 360 * IZR k) = Spec.normalize v.
Proof.
  destruct (normalize_congruent (v + 360 * IZR k)) as [a Ha].
  destruct (normalize_congruent v) as [b Hb].
  pose proof (normalize_range (v + 360 * IZR k)).
  pose proof (normalize_range v).
  apply (turns_apart _ _ (k + a - b)); [| lra].
  rewrite minus_IZR, plus_IZR. lra.
Qed.

(** X2.  On text that reads as a finite number the validator of the
    untiangle field is idempotent: what it returns it accepts again
    unchanged.  Text that reads as an angle from 0 to 180 comes back as
    that angle. *)
Theorem untiangle_classValidator_idempotent (t : str) (v : R) :
  parseFloat (Str t || Num (Fin 0))%js = Fin v ->
  FieldUntiangle.classValidator (FieldUntiangle.classValidator (Str t))
  = FieldUntiangle.classValidator (Str t)
  /\ (0 <= v <= 180 ->
      FieldUntiangle.classValidator (Str t) = Str (Decimal (Fin v))).
Proof.
  intros H. rewrite (classValidator_untiangle_finite t v H). split.
  - rewrite (classValidator_untiangle_finite (Decimal (Fin (Spec.normalize v)))
               (Spec.normalize v) eq_refl).
    rewrite normalize_fixed by apply normalize_range. reflexivity.
  - intros Hr. rewrite normalize_fixed by lra. reflexivity.
Qed.

Lemma untiangle_classValidator_idempotent_witness :
  FieldUntiangle.classValidator
    (FieldUntiangle.classValidator (Str (Chars "12abc")))
  = FieldUntiangle.classValidator (Str (Chars "12abc"))
  /\ FieldUntiangle.classValidator (Str (Chars "12abc"))
     = Str (Decimal (Fin 12)).
Proof.
  destruct (untiangle_classValidator_idempotent (Chars "12abc") 12
              parseFloat_12abc) as [H1 H2].
  split; [exact H1 | apply H2; lra].
Defined.

Lemma parseFloat_Infinity :
  parseFloat (Str (Chars "Infinity") || Num (Fin 0))%js = PosInf.
Proof. scan. reflexivity. Qed.

(** X3.  Text that reads as an infinity is not rejected.  The validator
    of the untiangle field turns it into the text of [NaN], which it
    would itself reject; the validator of the percent field gives the
    infinity back. *)
Theorem classValidator_infinite (t : str) :
  parseFloat (Str t || Num (Fin 0))%js = PosInf
  \/ parseFloat (Str t || Num (Fin 0))%js = NegInf ->
  FieldUntiangle.classValidator (Str t) = Str (Decimal NaN)
  /\ FieldUntiangle.classValidator (FieldUntiangle.classValidator (Str t))
     = Null
  /\ FieldPercent.classValidator (Str t)
     = Str (Decimal (parseFloat (Str t || Num (Fin 0))%js)).
Proof.
  intros H.
  assert (Hu : FieldUntiangle.classValidator (Str t) = Str (Decimal NaN)).
  { rewrite classValidator_untiangle_Str. destruct H as [-> | ->]; reflexivity. }
  split; [exact Hu |]. split.
  - rewrite Hu. reflexivity.
  - unfold FieldPercent.classValidator. destruct H as [-> | ->]; reflexivity.
Qed.

Lemma classValidator_infinite_witness :
  FieldUntiangle.classValidator (Str (Chars "Infinity")) = Str (Decimal NaN)
  /\ FieldPercent.classValidator (Str (Chars "Infinity"))
     = Str (Decimal PosInf).
Proof.
  destruct (classValidator_infinite (Chars "Infinity")
              (or_introl parseFloat_Infinity)) as (H1 & _ & H2).
  split; [exact H1 |]. rewrite H2, parseFloat_Infinity. reflexivity.
Defined.

(** X4.  Anything falsy but [null] is read as 0, through [text || 0]:
    the empty string, the number 0 and the number [NaN] are all
    accepted as "0" by both validators. *)
Theorem classValidator_falsy (text : value) :
  text <> Null ->
  is_truthy text = false ->
  FieldUntiangle.classValidator text = Str (Decimal (Fin 0))
  /\ FieldPercent.classValidator text = Str (Decimal (Fin 0)).
Proof.
  intros Hn Hf.
  assert (Hp : parseFloat (text || Num (Fin 0))%js = Fin 0).
  { unfold or. rewrite Hf. reflexivity. }
  split.
  - rewrite (classValidator_untiangle_value text 0 Hn Hp).
    rewrite normalize_fixed by lra. reflexivity.
  - apply classValidator_percent_finite; assumption.
Qed.

Lemma classValidator_falsy_witness :
  FieldUntiangle.classValidator (Num NaN) = Str (Decimal (Fin 0))
  /\ FieldPercent.classValidator (Num NaN) = Str (Decimal (Fin 0)).
Proof.
  apply (classValidator_falsy (Num NaN)); [discriminate | reflexivity].
Defined.

(** *** Text typed under the restrictor *)

Lemma every_skip_white (p : ascii -> bool) (s : string) :
  Ctor.every p s = true -> Ctor.every p (Scan.skip_white s) = true.
Proof.
  induction s as [| c s IH]; simpl; [trivial |].
  intros H. apply andb_prop in H as [Hc Hs].
  destruct (Scan.is_white c); [apply IH, Hs |].
  simpl. rewrite Hc, Hs. reflexivity.
Qed.

Lemma every_sign (p : ascii -> bool) (s : string) :
  Ctor.every p s = true -> Ctor.every p (snd (Scan.sign s)) = true.
Proof.
  intros H. unfold Scan.sign.
  destruct s as [| c s]; [exact H |].
  simpl in H. apply andb_prop in H as [Hc Hs].
  destruct (ascii_dec c "-") as [-> | H1]; [exact Hs |].
  destruct (ascii_dec c "+") as [-> | H2]; [exact Hs |].
  assert (Hsame : snd (Scan.sign (String c s)) = String c s).
  { unfold Scan.sign.
    destruct c as [[] [] [] [] [] [] [] []]; try reflexivity;
      contradiction. }
  unfold Scan.sign in Hsame. rewrite Hsame. simpl. rewrite Hc, Hs. reflexivity.
Qed.

Lemma restricted_no_Infinity (s : string) :
  Ctor.every Ctor.numRestrictor s = true -> String.prefix "Infinity" s = false.
Proof.
  destruct s as [| c s]; [reflexivity |].
  cbn [Ctor.every]. intros H. apply andb_prop in H as [Hc _].
  change (String.prefix "Infinity" (String c s))
    with (if ascii_dec "I" c then String.prefix "nfinity" s else false).
  destruct (ascii_dec "I" c) as [<- | Hne]; [| reflexivity].
  vm_compute in Hc. discriminate Hc.
Qed.

(** Under the restrictor a literal is a decimal one. *)
Lemma restricted_literal (s : string) :
  Ctor.every Ctor.numRestrictor s = true ->
  Scan.str_decimal_literal s = None
  \/ exists negative m e rest,
      Scan.str_decimal_literal s = Some (Scan.Decimal_lit negative m e, rest).
Proof.
  intros H. unfold Scan.str_decimal_literal.
  pose proof (every_sign _ _ H) as Hs.
  destruct (Scan.sign s) as [negative s1]. simpl in Hs.
  rewrite (restricted_no_Infinity s1 Hs).
  destruct (Scan.digits s1 0 0) as [[ip ni] s2].
  destruct (match s2 with
            | String "."%char s' => Scan.digits s' ip 0
            | _ => (ip, 0%Z, s2)
            end) as [[m nf] s3].
  destruct ((ni =? 0)%Z && (nf =? 0)%Z); [left; reflexivity |].
  destruct (Scan.exponent s3) as [e s4].
  right. exists negative, m, (e - nf)%Z, s4. reflexivity.
Qed.

Lemma parseFloat_1e400 :
  parseFloat (Str (Chars "1e400") || Num (Fin 0))%js = PosInf.
Proof. scan. reflexivity. Qed.

(** X5.  The restrictor lets through digits, the point, the minus sign,
    [e] and [E].  Text made of these cannot spell [Infinity], yet it can
    name a number too large for binary64, which reads as an infinity.
    So for such text either both validators reject it, or both return a
    finite number (within (-180, 180] for the untiangle field), or the
    text is an overflowing decimal literal, the untiangle validator
    returns the text of [NaN] and the percent validator the infinity.
    The last case happens: "1e400" passes the restrictor. *)
Theorem restricted_text_validated :
  (forall s : string,
      Ctor.every Ctor.numRestrictor s = true ->
      (FieldUntiangle.classValidator (Str (Chars s)) = Null
       /\ FieldPercent.classValidator (Str (Chars s)) = Null)
      \/ (exists v w : R,
             FieldUntiangle.classValidator (Str (Chars s))
             = Str (Decimal (Fin w))
             /\ -180 < w <= 180
             /\ FieldPercent.classValidator (Str (Chars s))
                = Str (Decimal (Fin v)))
      \/ (exists (negative : bool) (m e : Z) (rest : string),
             Scan.str_decimal_literal (Scan.skip_white s)
             = Some (Scan.Decimal_lit negative m e, rest)
             /\ Scan.overflows m e = true
             /\ FieldUntiangle.classValidator (Str (Chars s))
                = Str (Decimal NaN)
             /\ FieldPercent.classValidator (Str (Chars s))
                = Str (Decimal (Js.signed_inf negative))))
  /\ Ctor.every Ctor.numRestrictor "1e400" = true
  /\ FieldUntiangle.classValidator (Str (Chars "1e400")) = Str (Decimal NaN)
  /\ FieldPercent.classValidator (Str (Chars "1e400"))
     = Str (Decimal PosInf).
Proof.
  split; [| split; [reflexivity | split]].
  - intros s H.
    assert (Hfin : forall v : R,
               parseFloat (Str (Chars s) || Num (Fin 0))%js = Fin v ->
               exists v w : R,
                 FieldUntiangle.classValidator (Str (Chars s))
                 = Str (Decimal (Fin w))
                 /\ -180 < w <= 180
                 /\ FieldPercent.classValidator (Str (Chars s))
                    = Str (Decimal (Fin v))).
    { intros v Hv. exists v, (Spec.normalize v). split.
      - apply classValidator_untiangle_finite, Hv.
      - split; [apply normalize_range |].
        apply classValidator_percent_finite; [discriminate | exact Hv]. }
    destruct s as [| c s]; [right; left; apply (Hfin 0); reflexivity |].
    assert (Hp : parseFloat (Str (Chars (String c s)) || Num (Fin 0))%js
                 = match Scan.str_decimal_literal
                           (Scan.skip_white (String c s)) with
                   | Some (l, _) => Scan.number_of_literal l
                   | None => NaN
                   end) by reflexivity.
    destruct (restricted_literal _ (every_skip_white _ _ H))
      as [Hl | (negative & m & e & rest & Hl)]; rewrite Hl in Hp.
    + left. rewrite classValidator_untiangle_Str.
      unfold FieldPercent.classValidator. rewrite Hp. split; reflexivity.
    + cbn [Scan.number_of_literal] in Hp.
      destruct (Scan.overflows m e) eqn:Ho.
      * right; right. exists negative, m, e, rest.
        split; [exact Hl |]. split; [exact Ho |].
        rewrite classValidator_untiangle_Str.
        unfold FieldPercent.classValidator. rewrite Hp.
        destruct negative; split; reflexivity.
      * right; left. eapply Hfin. exact Hp.
  - rewrite classValidator_untiangle_Str, parseFloat_1e400. reflexivity.
  - unfold FieldPercent.classValidator. rewrite parseFloat_1e400. reflexivity.
Qed.

Lemma restricted_text_validated_witness :
  (FieldUntiangle.classValidator (Str (Chars "-12.5e1")) = Null
   /\ FieldPercent.classValidator (Str (Chars "-12.5e1")) = Null)
  \/ (exists v w : R,
         FieldUntiangle.classValidator (Str (Chars "-12.5e1"))
         = Str (Decimal (Fin w))
         /\ -180 < w <= 180
         /\ FieldPercent.classValidator (Str (Chars "-12.5e1"))
            = Str (Decimal (Fin v)))
  \/ (exists (negative : bool) (m e : Z) (rest : string),
         Scan.str_decimal_literal (Scan.skip_white "-12.5e1")
         = Some (Scan.Decimal_lit negative m e, rest)
         /\ Scan.overflows m e = true
         /\ FieldUntiangle.classValidator (Str (Chars "-12.5e1"))
            = Str (Decimal NaN)
         /\ FieldPercent.classValidator (Str (Chars "-12.5e1"))
            = Str (Decimal (Js.signed_inf negative))).
Proof.
  apply (proj1 restricted_text_validated "-12.5e1"%string). reflexivity.
Defined.

(** ** More on the pointer *)

Lemma to_degrees_lt (a b : R) : a < b -> a * 180 / PI < b * 180 / PI.
Proof.
  intros H. pose proof PI_RGT_0 as Hpi. unfold Rdiv.
  apply Rmult_lt_compat_r; [apply Rinv_0_lt_compat; lra | lra].
Qed.

Lemma quarter_turn_degrees : PI / 2 * 180 / PI = 90.
Proof. field. apply PI_neq0. Qed.

Lemma minus_quarter_turn_degrees : - (PI / 2) * 180 / PI = -90.
Proof. field. apply PI_neq0. Qed.

Lemma atan_degrees_bound (x : R) : -90 < atan x * 180 / PI < 90.
Proof.
  pose proof (atan_bound x) as [Hl Hu].
  pose proof (to_degrees_lt _ _ Hl) as Hl'.
  pose proof (to_degrees_lt _ _ Hu) as Hu'.
  rewrite quarter_turn_degrees in Hu'.
  match type of Hl' with
  | ?l < _ => replace l with (-90) in Hl' by (field; apply PI_neq0)
  end.
  lra.
Qed.

Lemma atan_degrees_neg (x : R) : x < 0 -> atan x * 180 / PI < 0.
Proof.
  intros Hx. pose proof (atan_increasing _ _ Hx) as H. rewrite atan_0 in H.
  pose proof (to_degrees_lt _ _ H) as H'.
  replace (0 * 180 / PI) with 0 in H' by (field; apply PI_neq0). exact H'.
Qed.

Lemma atan_degrees_nonneg (x : R) : 0 <= x -> 0 <= atan x * 180 / PI.
Proof.
  intros [Hx | <-].
  - pose proof (atan_increasing _ _ Hx) as H. rewrite atan_0 in H.
    pose proof (to_degrees_lt _ _ H) as H'.
    replace (0 * 180 / PI) with 0 in H' by (field; apply PI_neq0). lra.
  - rewrite atan_0. replace (0 * 180 / PI) with 0 by (field; apply PI_neq0).
    lra.
Qed.

(** The bearing of a pointer off the centre lies within one turn. *)
Lemma bearing_range (dx dy : R) :
  ~ (dx = 0 /\ dy = 0) ->
  0 <= Real.bearing dx dy (Real.slope_angle dx dy) < 360.
Proof.
  intros Hc. unfold Real.bearing, Real.slope_angle. cbv zeta.
  destruct (Req_dec_T dx 0) as [Hx | Hx].
  - subst dx. assert (Hy : dy <> 0) by tauto.
    rewrite (Reqb_true 0 0) by reflexivity. rewrite (Rltb_false 0 0) by lra.
    destruct (Rlt_dec dy 0).
    + rewrite (Rltb_true dy 0), (Rltb_false 0 dy) by lra.
      rewrite quarter_turn_degrees. lra.
    + rewrite (Rltb_false dy 0), (Rltb_true 0 dy) by lra.
      rewrite minus_quarter_turn_degrees. lra.
  - rewrite (Reqb_false dx 0) by assumption.
    pose proof (atan_degrees_bound (- dy / dx)) as Hb.
    destruct (Rlt_dec dx 0).
    + rewrite (Rltb_true dx 0) by lra. lra.
    + rewrite (Rltb_false dx 0) by lra.
      assert (Hp : 0 < dx) by lra.
      destruct (Rlt_dec 0 dy).
      * rewrite (Rltb_true 0 dy) by lra.
        assert (Hq : - dy / dx < 0) by (apply Rdiv_neg_pos; lra).
        pose proof (atan_degrees_neg _ Hq). lra.
      * rewrite (Rltb_false 0 dy) by lra.
        assert (Hq : 0 <= - dy / dx) by (apply Rdiv_nonneg; lra).
        pose proof (atan_degrees_nonneg _ Hq). lra.
Qed.

(** X6.  For a pointer off the centre, the bearing the handlers work
    out lies in [0, 360), and it is as the comment of the source says:
    0 to the East, 90 to the North, 180 to the West and 270 to the
    South, the screen's y axis pointing down. *)
Theorem bearing_compass (dx dy : R) :
  ~ (dx = 0 /\ dy = 0) ->
  exists b : R,
    Gauge.bearing (Fin dx) (Fin dy) (Math.atan (- Fin dy / Fin dx)%js) = Fin b
    /\ 0 <= b < 360
    /\ (0 < dx -> dy = 0 -> b = 0)
    /\ (dx = 0 -> dy < 0 -> b = 90)
    /\ (dx < 0 -> dy = 0 -> b = 180)
    /\ (dx = 0 -> 0 < dy -> b = 270).
Proof.
  intros Hc. exists (Real.bearing dx dy (Real.slope_angle dx dy)).
  split; [rewrite atan_slope_Fin by assumption; apply bearing_Fin |].
  split; [apply bearing_range, Hc |].
  unfold Real.bearing, Real.slope_angle. cbv zeta.
  split; [| split; [| split]].
  - intros Hx ->. decide_R. replace (- 0 / dx) with 0 by (field; lra).
    rewrite atan_0. field. apply PI_neq0.
  - intros -> Hy. decide_R. apply quarter_turn_degrees.
  - intros Hx ->. decide_R. replace (- 0 / dx) with 0 by (field; lra).
    rewrite atan_0. field. apply PI_neq0.
  - intros -> Hy. decide_R. field. apply PI_neq0.
Qed.

Lemma bearing_compass_witness :
  exists b : R,
    Gauge.bearing (Fin 0) (Fin (-50)) (Math.atan (- Fin (-50) / Fin 0)%js)
    = Fin b
    /\ b = 90.
Proof.
  destruct (bearing_compass 0 (-50)) as (b & Hb & _ & _ & H & _).
  - intros [_ H]. lra.
  - exists b. split; [exact Hb | apply H; lra].
Defined.

(** X7.  The angle of a pointer depends on its direction only: moving
    the pointer along the ray from the centre through it changes
    nothing, whatever the constants of the class. *)
Theorem pointToDegrees_ray (cw : bool) (OFFSET ROUND : number)
    (c dx dy : R) :
  0 < c ->
  Gauge.pointToDegrees cw OFFSET ROUND (Fin (c * dx)) (Fin (c * dy))
  = Gauge.pointToDegrees cw OFFSET ROUND (Fin dx) (Fin dy).
Proof.
  intros Hc. unfold Gauge.pointToDegrees. cbv zeta.
  assert (Ha : Math.atan (- Fin (c * dy) / Fin (c * dx))%js
               = Math.atan (- Fin dy / Fin dx)%js).
  { rewrite !atan_slope. unfold Reqb, Rltb.
    destruct (Req_dec_T dx 0) as [Hx | Hx];
      destruct (Req_dec_T (c * dx) 0) as [Hx' | Hx']; try nra.
    - destruct (Req_dec_T dy 0) as [Hy | Hy];
        destruct (Req_dec_T (c * dy) 0) as [Hy' | Hy']; try nra;
        [reflexivity |].
      destruct (Rlt_dec dy 0); destruct (Rlt_dec (c * dy) 0); try nra;
        reflexivity.
    - do 2 f_equal. field. split; lra. }
  rewrite Ha. destruct (Js.isNaN _); [reflexivity |].
  unfold Gauge.degrees, Gauge.bearing. cbn [Js.lt Js.gt]. unfold Rltb.
  destruct (Rlt_dec (c * dx) 0); destruct (Rlt_dec dx 0); try nra;
    try reflexivity.
  destruct (Rlt_dec 0 (c * dy)); destruct (Rlt_dec 0 dy); try nra;
    reflexivity.
Qed.

Lemma pointToDegrees_ray_witness :
  Gauge.pointToDegrees FieldPercent.CLOCKWISE FieldPercent.OFFSET
    FieldPercent.ROUND (Fin (2 * 3)) (Fin (2 * 4))
  = Gauge.pointToDegrees FieldPercent.CLOCKWISE FieldPercent.OFFSET
      FieldPercent.ROUND (Fin 3) (Fin 4).
Proof. apply pointToDegrees_ray. lra. Defined.

(** *** What the handlers can commit *)

Lemma percent_unrounded_range (dx dy : R) :
  ~ (dx = 0 /\ dy = 0) -> 90 < Real.unrounded true 90 dx dy <= 450.
Proof.
  intros Hc. pose proof (bearing_range dx dy Hc). unfold Real.unrounded. lra.
Qed.

Lemma untiangle_unrounded_range (dx dy : R) :
  ~ (dx = 0 /\ dy = 0) -> -90 <= Real.unrounded false 90 dx dy < 270.
Proof.
  intros Hc. pose proof (bearing_range dx dy Hc). unfold Real.unrounded. lra.
Qed.

Lemma Zfloor_IZR (k : Z) : Zfloor (IZR k) = k.
Proof. apply Zfloor_eq. lra. Qed.

(** What the percent handler shows for [k] steps of 3.565. *)
Lemma percent_shown (k : Z) :
  (25 <= k <= 126)%Z ->
  Zfloor (Rrem (IZR k * 3.565) 360 / 3.565)
  = if (k <=? 100)%Z then k else (k - 101)%Z.
Proof.
  intros [Hl Hu]. apply IZR_le in Hl. apply IZR_le in Hu.
  destruct (Z.leb_spec k 100) as [H | H].
  - apply IZR_le in H. rewrite Rrem_small by lra.
    replace (IZR k * 3.565 / 3.565) with (IZR k) by (field; lra).
    apply Zfloor_IZR.
  - assert (H' : (101 <= k)%Z) by lia. apply IZR_le in H'.
    rewrite Rrem_once by lra.
    apply Zfloor_eq. rewrite minus_IZR. lra.
Qed.

Lemma percent_steps (dx dy : R) :
  ~ (dx = 0 /\ dy = 0) ->
  (25 <= Zfloor (Real.unrounded true 90 dx dy / 3.565 + / 2) <= 126)%Z.
Proof.
  intros Hc. pose proof (percent_unrounded_range dx dy Hc) as [Hl Hu].
  pose proof (Zfloor_bound (Real.unrounded true 90 dx dy / 3.565 + / 2))
    as [Hf Hg].
  split.
  - apply Zfloor_lub. lra.
  - assert (Hlt : IZR (Zfloor (Real.unrounded true 90 dx dy / 3.565 + / 2))
                  < 127) by lra.
    apply lt_IZR in Hlt. lia.
Qed.

(** X8.  Away from the centre, the percent handler rounds the angle to
    a whole number [k] of steps of 3.565 with [25 <= k <= 126], writes a
    whole number from 0 to 100 into the inline input, and hands
    [k * 3.565] to [setValue]. *)
Theorem percent_onMouseMove_steps (st : Field) (e : MouseEvent) :
  gauge_ st <> None ->
  ~ (clientX e - bBox_left e - 60 = 0 /\ clientY e - bBox_top e - 60 = 0) ->
  exists k j : Z,
    (25 <= k <= 126)%Z
    /\ (0 <= j <= 100)%Z
    /\ Gauge.pointToDegrees FieldPercent.CLOCKWISE FieldPercent.OFFSET
         FieldPercent.ROUND (Gauge.pointer_dx FieldPercent.HALF e)
         (Gauge.pointer_dy FieldPercent.HALF e) = Fin (IZR k * 3.565)
    /\ FieldPercent.onMouseMove st e
       = Some (FieldPercent.setValue
                 (with_htmlInput st (Num (Fin (IZR j))))
                 (Num (Fin (IZR k * 3.565)))).
Proof.
  intros Hg Hc.
  destruct (percent_pointer_angle e Hc) as [Hn Ha].
  pose proof (percent_steps _ _ Hc) as Hk.
  set (k := Zfloor (Real.unrounded true 90 (clientX e - bBox_left e - 60)
                      (clientY e - bBox_top e - 60) / 3.565 + / 2)) in *.
  exists k, (if (k <=? 100)%Z then k else (k - 101)%Z).
  split; [exact Hk |].
  split; [destruct (Z.leb_spec k 100); lia |].
  split; [exact Ha |].
  rewrite (percent_onMouseMove_unfold st e Hg Hn).
  cbv zeta. rewrite Ha. unfold Real.quantize. fold k.
  unfold FieldPercent.ROUND.
  cbn [Js.rem]. decide_R. cbn [Js.div]. decide_R. cbn [Math.floor].
  rewrite (percent_shown k Hk). reflexivity.
Qed.

Lemma percent_onMouseMove_steps_witness :
  exists k j : Z,
    (25 <= k <= 126)%Z
    /\ (0 <= j <= 100)%Z
    /\ FieldPercent.onMouseMove Sample.field0 Sample.to_the_right
       = Some (FieldPercent.setValue
                 (with_htmlInput Sample.field0 (Num (Fin (IZR j))))
                 (Num (Fin (IZR k * 3.565)))).
Proof.
  destruct (percent_onMouseMove_steps Sample.field0 Sample.to_the_right)
    as (k & j & H1 & H2 & _ & H3).
  - discriminate.
  - simpl. lra.
  - exists k, j. split; [exact H1 |]. split; [exact H2 | exact H3].
Defined.

(** A multiple of 15 stays one when wrapped. *)
Lemma normalize_multiple_of_15 (j : Z) :
  exists m : Z, Spec.normalize (IZR j * 15) = IZR m * 15.
Proof.
  destruct (normalize_congruent (IZR j * 15)) as [k Hk].
  exists (j + 24 * k)%Z. rewrite Hk, plus_IZR, mult_IZR. lra.
Qed.

(** X9.  Away from the centre, on an untiangle field with no validator
    of its own, the handler shows and commits one and the same value: a
    multiple of 15 within (-180, 180]. *)
Theorem untiangle_onMouseMove_commits (st : Field) (e : MouseEvent) :
  gauge_ st <> None ->
  validator_ st = None ->
  ~ (clientX e - bBox_left e - 60 = 0 /\ clientY e - bBox_top e - 60 = 0) ->
  exists (m : Z) (st' : Field),
    FieldUntiangle.onMouseMove st e = Some st'
    /\ text_ st' = Decimal (Fin (IZR m * 15))
    /\ htmlInput_value st' = Decimal (Fin (IZR m * 15))
    /\ -180 < IZR m * 15 <= 180.
Proof.
  intros Hg Hu Hc.
  destruct (untiangle_pointer_angle e Hc) as [Hn Ha].
  set (j := Zfloor (Real.unrounded false 90 (clientX e - bBox_left e - 60)
                      (clientY e - bBox_top e - 60) / 15 + / 2)) in *.
  destruct (normalize_multiple_of_15 j) as [m Hm].
  eexists m, _.
  split; [apply (untiangle_onMouseMove_unfold st e Hg Hn) |].
  cbv zeta. rewrite Ha. unfold Real.quantize. fold j.
  unfold Host.callValidator. rewrite Hu.
  assert (Hv : Num (Fin (IZR j * 15)) <> Null) by discriminate.
  rewrite (classValidator_untiangle_value _ _ Hv (parseFloat_Num _)).
  rewrite Hm. unfold FieldUntiangle.setValue.
  split; [rewrite text_setValue by discriminate; reflexivity |].
  split; [rewrite htmlInput_setValue; reflexivity |].
  rewrite <- Hm. apply normalize_range.
Qed.

Lemma untiangle_onMouseMove_commits_witness :
  exists (m : Z) (st' : Field),
    FieldUntiangle.onMouseMove Sample.field0 Sample.to_the_right = Some st'
    /\ text_ st' = Decimal (Fin (IZR m * 15))
    /\ -180 < IZR m * 15 <= 180.
Proof.
  destruct (untiangle_onMouseMove_commits Sample.field0 Sample.to_the_right)
    as (m & st' & H1 & H2 & _ & H3).
  - discriminate.
  - reflexivity.
  - simpl. lra.
  - destruct H3 as [H3 H4]. exists m, st'. repeat split; assumption.
Defined.

(** ** Opening the editor and dragging the handle *)

Lemma gauge_updateGraph_some (cw : bool) (OFFSET HALF RADIUS : number)
    (st : Field) (d : Dial) :
  gauge_ st = Some d ->
  exists d' : Dial,
    gauge_ (Gauge.updateGraph_ cw OFFSET HALF RADIUS st) = Some d'.
Proof.
  intros Hg. unfold Gauge.updateGraph_. rewrite Hg.
  destruct (negb _); eexists; reflexivity.
Qed.

Lemma gauge_setValue_some (cw : bool) (OFFSET HALF RADIUS : number)
    (st : Field) (d : Dial) (v : value) :
  gauge_ st = Some d ->
  exists d' : Dial,
    gauge_ (Gauge.setValue cw OFFSET HALF RADIUS st v) = Some d'.
Proof.
  intros Hg. unfold Gauge.setValue, Gauge.setText, Host.setText.
  destruct v; [exists d; exact Hg | |];
    cbn [textElement_ with_text]; destruct (textElement_ st); cbn [negb];
    try (exists d; exact Hg);
    unfold with_width; cbn [gauge_];
    apply (gauge_updateGraph_some _ _ _ _ _ d); exact Hg.
Qed.

Lemma percent_showEditor_text (noFocus : bool) (st : Field) :
  text_ (FieldPercent.showEditor_ noFocus st)
  = Decimal (Number (text_ st) * Fin 3.565)%js.
Proof.
  unfold FieldPercent.showEditor_, FieldPercent.updateGraph_,
    FieldPercent.setValue. cbv zeta.
  rewrite text_updateGraph_, text_setValue by discriminate. reflexivity.
Qed.

(** The dial the percent editor opens with, for text that reads as a
    finite number. *)
Lemma percent_showEditor_drawn (noFocus : bool) (st : Field) (n : R) :
  Number (text_ st) = Fin n ->
  gauge_ (FieldPercent.showEditor_ noFocus st)
  = Some (Real.drawn true 90 60 47 (n * 3.565)).
Proof.
  intros Hn.
  pose proof (percent_showEditor_text noFocus st) as Ht. rewrite Hn in Ht.
  unfold FieldPercent.showEditor_ in *. cbv zeta in *.
  set (stA := FieldPercent.setValue _ _) in *.
  destruct (gauge_setValue_some FieldPercent.CLOCKWISE FieldPercent.OFFSET
              FieldPercent.HALF FieldPercent.RADIUS
              (with_gauge (Host.showEditor_ st noFocus) (Some blank_dial))
              blank_dial
              (Num (Number (Host.getText
                              (with_gauge (Host.showEditor_ st noFocus)
                                 (Some blank_dial))) * FieldPercent.ROUND)%js)
              eq_refl) as [d Hd].
  fold FieldPercent.setValue in Hd. fold stA in Hd.
  assert (Hv : Number (text_ stA) = Fin (n * 3.565)).
  { unfold FieldPercent.updateGraph_ in Ht. rewrite text_updateGraph_ in Ht.
    rewrite Ht. reflexivity. }
  rewrite (percent_updateGraph_finite stA d _ Hd Hv). reflexivity.
Qed.

(** The untiangle editor opens on the drawing of the text. *)
Lemma untiangle_showEditor_drawn (noFocus : bool) (st : Field) (v : R) :
  Number (text_ st) = Fin v ->
  FieldUntiangle.showEditor_ noFocus st
  = with_gauge st (Some (Real.drawn false 90 60 47 v)).
Proof.
  intros Hv. unfold FieldUntiangle.showEditor_. cbv zeta.
  rewrite (untiangle_updateGraph_finite
             (with_gauge (Host.showEditor_ st noFocus) (Some blank_dial))
             blank_dial v eq_refl Hv).
  reflexivity.
Qed.

(** The pointer put on the handle drawn for [v]. *)
Lemma pointer_on_handle (cw : bool) (offset v left top : R) :
  let x2 := 60 + cos (Real.handle_angle cw offset v) * 47 in
  let y2 := 60 - sin (Real.handle_angle cw offset v) * 47 in
  let e := mkEvent (left + x2) (top + y2) left top in
  clientX e - bBox_left e - 60 = cos (Real.handle_angle cw offset v) * 47
  /\ clientY e - bBox_top e - 60
     = - (sin (Real.handle_angle cw offset v) * 47).
Proof. cbn. split; ring. Qed.

Lemma percent_round_trip_steps (p k : Z) (u : R) :
  (0 <= p <= 100)%Z ->
  u = IZR p * 3.565 + 360 * IZR k ->
  90 < u <= 450 ->
  (let j := Zfloor (u / 3.565 + / 2) in
   if (j <=? 100)%Z then j else (j - 101)%Z) = p.
Proof.
  intros [Hp0 Hp1] Hu [Hl Hh]. cbv zeta.
  pose proof (IZR_le _ _ Hp0) as Hp0'. pose proof (IZR_le _ _ Hp1) as Hp1'.
  assert (Hk : (k = 0 \/ k = 1)%Z).
  { assert (-1 < IZR k < 2) as [H1 H2] by lra.
    apply lt_IZR in H1. apply lt_IZR in H2. lia. }
  destruct Hk as [-> | ->].
  - assert (Hj : Zfloor (u / 3.565 + / 2) = p).
    { apply Zfloor_eq. lra. }
    rewrite Hj. destruct (Z.leb_spec p 100); [reflexivity | lia].
  - assert (Hj : Zfloor (u / 3.565 + / 2) = (p + 101)%Z).
    { apply Zfloor_eq. rewrite plus_IZR. lra. }
    rewrite Hj. destruct (Z.leb_spec (p + 101) 100); lia.
Qed.

(** X10.  A percent field whose text reads as a whole number [p] from 0
    to 100: open the editor, which commits [p * 3.565] and draws the
    handle there, and move the pointer onto that handle, wherever the
    dial is on the screen.  The inline input then shows a whole number
    that is [p] or the one below it. *)
Theorem percent_open_then_drag (noFocus : bool) (st : Field) (p : Z)
    (left top : R) :
  (0 <= p <= 100)%Z ->
  Number (text_ st) = Fin (IZR p) ->
  exists (d : Dial) (x2 y2 : R) (j : Z) (st2 : Field),
    gauge_ (FieldPercent.showEditor_ noFocus st) = Some d
    /\ handle_translate d = Some (Fin x2, Fin y2)
    /\ FieldPercent.onMouseMove (FieldPercent.showEditor_ noFocus st)
         (mkEvent (left + x2) (top + y2) left top) = Some st2
    /\ htmlInput_value st2 = Decimal (Fin (IZR j))
    /\ (p - 1 <= j <= p)%Z.
Proof.
  intros Hp Hn.
  pose proof (percent_showEditor_drawn noFocus st _ Hn) as Hd.
  set (v := IZR p * 3.565) in *.
  set (theta := Real.handle_angle true 90 v).
  set (e := mkEvent (left + (60 + cos theta * 47))
              (top + (60 - sin theta * 47)) left top).
  destruct (pointer_on_handle true 90 v left top) as [Hx Hy].
  fold theta e in Hx, Hy.
  destruct (unrounded_of_handle true 90 47 v ltac:(lra)) as [Hc [k Hk]].
  fold theta in Hc, Hk.
  assert (Hc' : ~ (clientX e - bBox_left e - 60 = 0
                   /\ clientY e - bBox_top e - 60 = 0))
    by (rewrite Hx, Hy; exact Hc).
  assert (Hg : gauge_ (FieldPercent.showEditor_ noFocus st) <> None)
    by (rewrite Hd; discriminate).
  destruct (percent_pointer_angle e Hc') as [Hnan Ha].
  rewrite Hx, Hy in Ha.
  exists (Real.drawn true 90 60 47 v), (60 + cos theta * 47),
    (60 - sin theta * 47), p.
  eexists. split; [exact Hd |]. split; [reflexivity |].
  split; [apply (percent_onMouseMove_unfold _ e Hg Hnan) |].
  split; [| lia].
  cbv zeta. rewrite Ha. unfold FieldPercent.setValue.
  rewrite htmlInput_setValue. unfold Real.quantize.
  pose proof (percent_unrounded_range _ _ Hc) as Hr.
  pose proof (percent_round_trip_steps p k _ Hp Hk Hr) as Hs.
  cbv zeta in Hs.
  assert (Hj : (25 <= Zfloor (Real.unrounded true 90 (cos theta * 47)
                                (- (sin theta * 47)) / 3.565 + / 2)
                <= 126)%Z) by (apply percent_steps; exact Hc).
  unfold FieldPercent.ROUND. cbn [Js.rem]. decide_R. cbn [Js.div]. decide_R.
  cbn [Math.floor with_htmlInput htmlInput_value ToString].
  rewrite (percent_shown _ Hj), Hs. reflexivity.
Qed.

Lemma percent_open_then_drag_witness :
  exists (d : Dial) (x2 y2 : R) (j : Z) (st2 : Field),
    gauge_ (FieldPercent.showEditor_ false
              (with_text Sample.field0 (Decimal (Fin (IZR 50))))) = Some d
    /\ handle_translate d = Some (Fin x2, Fin y2)
    /\ FieldPercent.onMouseMove
         (FieldPercent.showEditor_ false
            (with_text Sample.field0 (Decimal (Fin (IZR 50)))))
         (mkEvent (0 + x2) (0 + y2) 0 0) = Some st2
    /\ htmlInput_value st2 = Decimal (Fin (IZR j))
    /\ (50 - 1 <= j <= 50)%Z.
Proof.
  apply (percent_open_then_drag false
           (with_text Sample.field0 (Decimal (Fin (IZR 50)))) 50 0 0).
  - lia.
  - reflexivity.
Defined.

(** X11.  An untiangle field with no validator of its own, whose text
    reads as a multiple of 15 within (-180, 180]: open the editor and
    move the pointer onto the handle it draws.  The handler commits and
    shows that very value: a drag that does not move the handle does
    not change the field. *)
Theorem untiangle_open_then_drag (noFocus : bool) (st : Field) (m : Z)
    (left top : R) :
  validator_ st = None ->
  Number (text_ st) = Fin (IZR m * 15) ->
  -180 < IZR m * 15 <= 180 ->
  exists (d : Dial) (x2 y2 : R) (st2 : Field),
    gauge_ (FieldUntiangle.showEditor_ noFocus st) = Some d
    /\ handle_translate d = Some (Fin x2, Fin y2)
    /\ FieldUntiangle.onMouseMove (FieldUntiangle.showEditor_ noFocus st)
         (mkEvent (left + x2) (top + y2) left top) = Some st2
    /\ text_ st2 = Decimal (Fin (IZR m * 15))
    /\ htmlInput_value st2 = Decimal (Fin (IZR m * 15)).
Proof.
  intros Hu Hn Hr.
  rewrite (untiangle_showEditor_drawn noFocus st _ Hn).
  set (v := IZR m * 15) in *.
  set (theta := Real.handle_angle false 90 v).
  set (e := mkEvent (left + (60 + cos theta * 47))
              (top + (60 - sin theta * 47)) left top).
  destruct (pointer_on_handle false 90 v left top) as [Hx Hy].
  fold theta e in Hx, Hy.
  destruct (unrounded_of_handle false 90 47 v ltac:(lra)) as [Hc [k Hk]].
  fold theta in Hc, Hk.
  assert (Hc' : ~ (clientX e - bBox_left e - 60 = 0
                   /\ clientY e - bBox_top e - 60 = 0))
    by (rewrite Hx, Hy; exact Hc).
  set (st1 := with_gauge st (Some (Real.drawn false 90 60 47 v))).
  assert (Hg : gauge_ st1 <> None) by discriminate.
  destruct (untiangle_pointer_angle e Hc') as [Hnan Ha].
  rewrite Hx, Hy, Hk in Ha.
  assert (Hq : Real.quantize 15 (v + 360 * IZR k) = v + 360 * IZR k).
  { unfold Real.quantize, v.
    rewrite (Zfloor_eq (m + 24 * k)).
    - rewrite plus_IZR, mult_IZR. lra.
    - rewrite plus_IZR, mult_IZR. lra. }
  rewrite Hq in Ha.
  exists (Real.drawn false 90 60 47 v), (60 + cos theta * 47),
    (60 - sin theta * 47).
  eexists. split; [reflexivity |]. split; [reflexivity |].
  split; [apply (untiangle_onMouseMove_unfold st1 e Hg Hnan) |].
  cbv zeta. rewrite Ha. unfold Host.callValidator.
  assert (Hu1 : validator_ st1 = None) by exact Hu. rewrite Hu1.
  assert (Hv : Num (Fin (v + 360 * IZR k)) <> Null) by discriminate.
  rewrite (classValidator_untiangle_value _ _ Hv (parseFloat_Num _)).
  rewrite normalize_periodic, normalize_fixed by exact Hr.
  unfold FieldUntiangle.setValue.
  split; [rewrite text_setValue by discriminate; reflexivity |].
  rewrite htmlInput_setValue. reflexivity.
Qed.

Lemma untiangle_open_then_drag_witness :
  exists (d : Dial) (x2 y2 : R) (st2 : Field),
    gauge_ (FieldUntiangle.showEditor_ false
              (with_text Sample.field0 (Decimal (Fin (IZR (-3) * 15)))))
    = Some d
    /\ handle_translate d = Some (Fin x2, Fin y2)
    /\ FieldUntiangle.onMouseMove
         (FieldUntiangle.showEditor_ false
            (with_text Sample.field0 (Decimal (Fin (IZR (-3) * 15)))))
         (mkEvent (0 + x2) (0 + y2) 0 0) = Some st2
    /\ text_ st2 = Decimal (Fin (IZR (-3) * 15))
    /\ htmlInput_value st2 = Decimal (Fin (IZR (-3) * 15)).
Proof.
  apply (untiangle_open_then_drag false
           (with_text Sample.field0 (Decimal (Fin (IZR (-3) * 15))))
           (-3) 0 0).
  - reflexivity.
  - reflexivity.
  - lra.
Defined.

(** ** More on the dial *)

(** X12.  For a finite value the handle is drawn on the circle of radius
    47 about the centre (60, 60) of the dial, and where it is drawn
    depends on the value modulo 360 only: a value and the same value a
    whole number of turns away give the same handle. *)
Theorem handle_on_circle (st : Field) (dial : Dial) (v : R) :
  gauge_ st = Some dial ->
  Number (text_ st) = Fin v ->
  (exists (d : Dial) (x2 y2 : R),
      gauge_ (FieldUntiangle.updateGraph_ st) = Some d
      /\ handle_translate d = Some (Fin x2, Fin y2)
      /\ line_x2 d = Some (Fin x2) /\ line_y2 d = Some (Fin y2)
      /\ (x2 - 60) * (x2 - 60) + (y2 - 60) * (y2 - 60) = 47 * 47
      /\ x2 = 60 + cos ((v + 90) * PI / 180) * 47
      /\ y2 = 60 - sin ((v + 90) * PI / 180) * 47)
  /\ (exists (d : Dial) (x2 y2 : R),
         gauge_ (FieldPercent.updateGraph_ st) = Some d
         /\ handle_translate d = Some (Fin x2, Fin y2)
         /\ line_x2 d = Some (Fin x2) /\ line_y2 d = Some (Fin y2)
         /\ (x2 - 60) * (x2 - 60) + (y2 - 60) * (y2 - 60) = 47 * 47
         /\ x2 = 60 + cos ((90 - v) * PI / 180) * 47
         /\ y2 = 60 - sin ((90 - v) * PI / 180) * 47).
Proof.
  intros Hg Hv. destruct (Rrem_multiple v 360) as [j Hj].
  pose proof PI_neq0 as Hpi.
  split.
  - rewrite (untiangle_updateGraph_finite st dial v Hg Hv).
    exists (Real.drawn false 90 60 47 v).
    exists (60 + cos (Real.handle_angle false 90 v) * 47).
    exists (60 - sin (Real.handle_angle false 90 v) * 47).
    repeat (split; [reflexivity |]).
    assert (Ha : Real.handle_angle false 90 v
                 = (v + 90) * PI / 180 + 2 * IZR j * PI).
    { unfold Real.handle_angle, Real.effective. rewrite Hj. field. }
    split.
    + pose proof (sin2_cos2 (Real.handle_angle false 90 v)) as H.
      unfold Rsqr in H. nra.
    + rewrite Ha, cos_period_Z, sin_period_Z. split; reflexivity.
  - rewrite (percent_updateGraph_finite st dial v Hg Hv).
    exists (Real.drawn true 90 60 47 v).
    exists (60 + cos (Real.handle_angle true 90 v) * 47).
    exists (60 - sin (Real.handle_angle true 90 v) * 47).
    repeat (split; [reflexivity |]).
    assert (Ha : Real.handle_angle true 90 v
                 = (90 - v) * PI / 180 + 2 * IZR (- j) * PI).
    { unfold Real.handle_angle, Real.effective. rewrite Hj, opp_IZR. field. }
    split.
    + pose proof (sin2_cos2 (Real.handle_angle true 90 v)) as H.
      unfold Rsqr in H. nra.
    + rewrite Ha, cos_period_Z, sin_period_Z. split; reflexivity.
Qed.

Lemma handle_on_circle_witness :
  exists (d : Dial) (x2 y2 : R),
    gauge_ (FieldUntiangle.updateGraph_
              (with_text Sample.field0 (Decimal (Fin 400)))) = Some d
    /\ handle_translate d = Some (Fin x2, Fin y2)
    /\ (x2 - 60) * (x2 - 60) + (y2 - 60) * (y2 - 60) = 47 * 47.
Proof.
  destruct (handle_on_circle (with_text Sample.field0 (Decimal (Fin 400)))
              blank_dial 400)
    as [(d & x2 & y2 & H1 & H2 & _ & _ & H3 & _) _].
  - reflexivity.
  - reflexivity.
  - exists d, x2, y2. split; [exact H1 |]. split; [exact H2 | exact H3].
Defined.

(** What [updateGraph_] draws when the text does not read as a finite
    number. *)
Lemma updateGraph_not_finite (cw : bool) (OFFSET HALF RADIUS : number)
    (st : Field) (dial : Dial) :
  gauge_ st = Some dial ->
  (forall v : R, Number (text_ st) <> Fin v) ->
  Gauge.updateGraph_ cw OFFSET HALF RADIUS st
  = with_gauge st
      (Some (mkDial (Some [Txt "M "; Val HALF; Txt ","; Val HALF])
               (Some HALF) (Some HALF) (Some (HALF, HALF))
               (arrow_rotate dial))).
Proof.
  intros Hg Hv. unfold Gauge.updateGraph_, Host.getText. rewrite Hg.
  assert (Hn : (Number (text_ st) rem Fin 360)%js = NaN).
  { destruct (Number (text_ st)) as [v | | |]; try reflexivity.
    exfalso. apply (Hv v). reflexivity. }
  rewrite Hn. reflexivity.
Qed.

Lemma Number_abc : Number (Chars "abc") = NaN.
Proof. scan. reflexivity. Qed.

(** X13.  When the text of the field does not read as a finite number
    ([NaN] or an infinity), [updateGraph_] draws no arc: the path is the
    move to the centre alone, the line and the handle collapse onto the
    centre (60, 60), and the arrow keeps the rotation it had. *)
Theorem updateGraph_without_angle (st : Field) (dial : Dial) :
  gauge_ st = Some dial ->
  (forall v : R, Number (text_ st) <> Fin v) ->
  let collapsed :=
    mkDial (Some [Txt "M "; Val (Fin 60); Txt ","; Val (Fin 60)])
      (Some (Fin 60)) (Some (Fin 60)) (Some (Fin 60, Fin 60))
      (arrow_rotate dial) in
  FieldUntiangle.updateGraph_ st = with_gauge st (Some collapsed)
  /\ FieldPercent.updateGraph_ st = with_gauge st (Some collapsed).
Proof.
  intros Hg Hv collapsed.
  unfold FieldUntiangle.updateGraph_, FieldPercent.updateGraph_.
  rewrite !(updateGraph_not_finite _ _ _ _ st dial Hg Hv).
  rewrite HALF_untiangle, HALF_percent. split; reflexivity.
Qed.

Lemma updateGraph_without_angle_witness :
  gauge_ (FieldUntiangle.updateGraph_
            (with_text Sample.field0 (Chars "abc")))
  = Some (mkDial (Some [Txt "M "; Val (Fin 60); Txt ","; Val (Fin 60)])
            (Some (Fin 60)) (Some (Fin 60)) (Some (Fin 60, Fin 60)) None).
Proof.
  destruct (updateGraph_without_angle
              (with_text Sample.field0 (Chars "abc")) blank_dial) as [H _].
  - reflexivity.
  - intros v. cbn [text_ with_text]. rewrite Number_abc. discriminate.
  - rewrite H. reflexivity.
Defined.

(** [updateGraph_] touches the dial only. *)
Lemma updateGraph_only_gauge (cw : bool) (OFFSET HALF RADIUS : number)
    (st : Field) :
  Gauge.updateGraph_ cw OFFSET HALF RADIUS st
  = with_gauge st (gauge_ (Gauge.updateGraph_ cw OFFSET HALF RADIUS st)).
Proof.
  unfold Gauge.updateGraph_. destruct (gauge_ st) eqn:Hg.
  - destruct (negb _); reflexivity.
  - destruct st. cbn in *. rewrite Hg. reflexivity.
Qed.

(** X14.  Redrawing is idempotent, and it changes nothing but the dial:
    the text, the validator, the cached width and the inline input stay
    as they are, and a field with no dial is left alone. *)
Theorem updateGraph_idempotent (cw : bool) (OFFSET HALF RADIUS : number)
    (st : Field) :
  let draw := Gauge.updateGraph_ cw OFFSET HALF RADIUS in
  draw (draw st) = draw st
  /\ text_ (draw st) = text_ st
  /\ size_width (draw st) = size_width st
  /\ textElement_ (draw st) = textElement_ st
  /\ htmlInput_value (draw st) = htmlInput_value st
  /\ (gauge_ st = None -> draw st = st).
Proof.
  cbv zeta. split.
  - unfold Gauge.updateGraph_, Host.getText.
    destruct (gauge_ st) as [dial |] eqn:Hg.
    + destruct (negb (Js.isNaN _)) eqn:Hn; cbn; rewrite Hn; reflexivity.
    + rewrite Hg. reflexivity.
  - rewrite (updateGraph_only_gauge cw OFFSET HALF RADIUS st).
    repeat split.
    intros Hg. unfold Gauge.updateGraph_. rewrite Hg. destruct st.
    cbn in *. rewrite Hg. reflexivity.
Qed.



(** ** Construction *)






(** ** Validators and the handlers *)

(** X17.  When the validators reject the angle of the pointer, the
    untiangle handler keeps the text and the dial of the field, yet it
    has already blanked the inline input. *)
Theorem untiangle_onMouseMove_veto (st : Field) (e : MouseEvent) :
  gauge_ st <> None ->
  ~ (clientX e - bBox_left e - 60 = 0 /\ clientY e - bBox_top e - 60 = 0) ->
  Host.callValidator FieldUntiangle.classValidator st
    (Num (Gauge.pointToDegrees FieldUntiangle.CLOCKWISE FieldUntiangle.OFFSET
            FieldUntiangle.ROUND (Gauge.pointer_dx FieldUntiangle.HALF e)
            (Gauge.pointer_dy FieldUntiangle.HALF e))) = Null ->
  exists st' : Field,
    FieldUntiangle.onMouseMove st e = Some st'
    /\ text_ st' = text_ st
    /\ gauge_ st' = gauge_ st
    /\ htmlInput_value st' = Chars "".
Proof.
  intros Hg Hc Hv.
  destruct (untiangle_pointer_angle e Hc) as [Hn _].
  eexists. split; [apply (untiangle_onMouseMove_unfold st e Hg Hn) |].
  cbv zeta. rewrite Hv. repeat split.
Qed.

(** A validator that vetoes everything. *)
Lemma untiangle_onMouseMove_veto_witness :
  exists st' : Field,
    FieldUntiangle.onMouseMove
      (with_validator Sample.field0 (Some (fun _ => Null)))
      Sample.to_the_right = Some st'
    /\ text_ st' = Chars "0"
    /\ htmlInput_value st' = Chars "".
Proof.
  destruct (untiangle_onMouseMove_veto
              (with_validator Sample.field0 (Some (fun _ => Null)))
              Sample.to_the_right) as (st' & H1 & H2 & _ & H3).
  - discriminate.
  - simpl. lra.
  - unfold Host.callValidator. cbn [validator_ with_validator].
    destruct (FieldUntiangle.classValidator _); reflexivity.
  - exists st'. split; [exact H1 |]. split; [exact H2 | exact H3].
Defined.

(** ** Opening the editor twice *)



(** ** The listeners of a drag *)

Lemma filter_keeps_numbered (l : list Drag.listener) (n wr : nat) :
  Forall (fun x => (Drag.id x < n)%nat) l -> (n <= wr)%nat ->
  filter (fun x => negb (Nat.eqb (Drag.id x) wr)) l = l.
Proof.
  intros Hl Hw. induction Hl as [| x l Hx Hl IH]; [reflexivity |].
  cbn [filter]. rewrite IH.
  destruct (Nat.eqb_spec (Drag.id x) wr); [lia | reflexivity].
Qed.

Lemma numbered_bind (p : Drag.Page) (n : Drag.node) (name : Drag.event_type) :
  Drag.numbered p -> Drag.numbered (fst (Drag.bindEvent_ p n name)).
Proof.
  intros H. unfold Drag.numbered, Drag.bindEvent_ in *.
  cbn [fst Drag.bound Drag.next]. constructor.
  - cbn [Drag.id]. lia.
  - eapply Forall_impl; [| exact H]. cbn beta. intros. lia.
Qed.

Lemma numbered_unbind (p : Drag.Page) (wr : nat) :
  Drag.numbered p -> Drag.numbered (Drag.unbindEvent_ p wr).
Proof.
  intros H. unfold Drag.numbered, Drag.unbindEvent_ in *.
  cbn [Drag.bound Drag.next]. apply Forall_forall.
  intros x Hx. apply filter_In in Hx as [Hx _].
  rewrite Forall_forall in H. apply H, Hx.
Qed.

(** X20.  A drag that ends releases what it bound: [onMouseDown] binds
    one [mousemove] and one [mouseup] listener on the body of the
    document, and [onMouseUp] after it leaves exactly the listeners
    that were bound before, the field untouched. *)
Theorem drag_releases_listeners (w : Drag.Widget) :
  Drag.numbered (Drag.page w) ->
  Drag.bound (Drag.page (Drag.onMouseDown w))
  = Drag.mkListener (S (Drag.next (Drag.page w))) Drag.document_body
      Drag.mouseup
    :: Drag.mkListener (Drag.next (Drag.page w)) Drag.document_body
         Drag.mousemove
    :: Drag.bound (Drag.page w)
  /\ exists w' : Drag.Widget,
      Drag.onMouseUp (Drag.onMouseDown w) = Some w'
      /\ Drag.bound (Drag.page w') = Drag.bound (Drag.page w)
      /\ Drag.field w' = Drag.field w
      /\ Drag.numbered (Drag.page w').
Proof.
  intros Hn.
  assert (Hb : Drag.bound (Drag.page (Drag.onMouseDown w))
               = Drag.mkListener (S (Drag.next (Drag.page w)))
                   Drag.document_body Drag.mouseup
                 :: Drag.mkListener (Drag.next (Drag.page w))
                      Drag.document_body Drag.mousemove
                 :: Drag.bound (Drag.page w)) by reflexivity.
  split; [exact Hb |].
  eexists. split; [reflexivity |].
  cbn [Drag.page Drag.field Drag.bound Drag.unbindEvent_ Drag.next].
  split; [| split; [reflexivity |]].
  - rewrite Hb. cbn [filter Drag.id].
    rewrite !Nat.eqb_refl.
    replace (Nat.eqb (S (Drag.next (Drag.page w))) (Drag.next (Drag.page w)))
      with false by (symmetry; apply Nat.eqb_neq; lia).
    cbn [negb filter Drag.id]. rewrite !Nat.eqb_refl. cbn [negb].
    rewrite (filter_keeps_numbered _ _ _ Hn (Nat.le_refl _)).
    apply (filter_keeps_numbered _ _ _ Hn). lia.
  - apply numbered_unbind, numbered_unbind.
    change (Drag.page (Drag.onMouseDown w))
      with (fst (Drag.bindEvent_
                   (fst (Drag.bindEvent_ (Drag.page w) Drag.document_body
                           Drag.mousemove))
                   Drag.document_body Drag.mouseup)).
    apply numbered_bind, numbered_bind, Hn.
Qed.

Lemma drag_releases_listeners_witness :
  exists w' : Drag.Widget,
    Drag.onMouseUp (Drag.onMouseDown
                      (Drag.fresh Sample.field0 (Drag.mkPage [] 0)))
    = Some w'
    /\ Drag.bound (Drag.page w') = [].
Proof.
  destruct (drag_releases_listeners
              (Drag.fresh Sample.field0 (Drag.mkPage [] 0)))
    as (_ & w' & H1 & H2 & _).
  - constructor.
  - exists w'. split; [exact H1 | exact H2].
Defined.

(** Settle the comparisons of wrapper numbers in the goal. *)
Ltac decide_ids :=
  repeat match goal with
  | |- context [Nat.eqb ?a ?b] =>
      first [ replace (Nat.eqb a b) with true
                by (symmetry; apply Nat.eqb_eq; lia)
            | replace (Nat.eqb a b) with false
                by (symmetry; apply Nat.eqb_neq; lia) ]
  end.

Ltac unbind_step := cbn [filter Drag.id]; decide_ids; cbn [negb].

Lemma page_eq (p q : Drag.Page) :
  Drag.bound p = Drag.bound q -> Drag.next p = Drag.next q -> p = q.
Proof. destruct p, q. cbn. intros -> ->. reflexivity. Qed.

Lemma widget_eq (a b : Drag.Widget) :
  Drag.field a = Drag.field b ->
  Drag.mouseDownWrapper_ a = Drag.mouseDownWrapper_ b ->
  Drag.mouseMoveWrapper_ a = Drag.mouseMoveWrapper_ b ->
  Drag.mouseUpWrapper_ a = Drag.mouseUpWrapper_ b ->
  Drag.page a = Drag.page b ->
  a = b.
Proof. destruct a, b. cbn. intros -> -> -> -> ->. reflexivity. Qed.

Lemma bound_after_two_downs (show : Field -> Field) (w : Drag.Widget) :
  let n := Drag.next (Drag.page w) in
  Drag.bound (Drag.page (Drag.onMouseDown (Drag.onMouseDown
                                             (Drag.showEditor_ show w))))
  = Drag.mkListener (4 + n) Drag.document_body Drag.mouseup
    :: Drag.mkListener (3 + n) Drag.document_body Drag.mousemove
    :: Drag.mkListener (2 + n) Drag.document_body Drag.mouseup
    :: Drag.mkListener (1 + n) Drag.document_body Drag.mousemove
    :: Drag.mkListener n Drag.handle Drag.mousedown
    :: Drag.bound (Drag.page w).
Proof. reflexivity. Qed.

(** X21.  Disposing of the field in the middle of a drag releases all it
    bound: after the editor was opened and the handle pressed once,
    [dispose_] leaves exactly the listeners that were bound before the
    editor opened, and no dial.  Disposing again changes nothing. *)
Theorem dispose_mid_drag (show : Field -> Field) (w : Drag.Widget) :
  Drag.numbered (Drag.page w) ->
  let dragging := Drag.onMouseDown (Drag.showEditor_ show w) in
  Drag.bound (Drag.page dragging)
  = Drag.mkListener (2 + Drag.next (Drag.page w)) Drag.document_body
      Drag.mouseup
    :: Drag.mkListener (1 + Drag.next (Drag.page w)) Drag.document_body
         Drag.mousemove
    :: Drag.mkListener (Drag.next (Drag.page w)) Drag.handle Drag.mousedown
    :: Drag.bound (Drag.page w)
  /\ Drag.bound (Drag.page (Drag.dispose_ dragging)) = Drag.bound (Drag.page w)
  /\ gauge_ (Drag.field (Drag.dispose_ dragging)) = None
  /\ Drag.dispose_ (Drag.dispose_ dragging) = Drag.dispose_ dragging.
Proof.
  intros Hn dragging.
  assert (Hb : Drag.bound (Drag.page dragging)
               = Drag.mkListener (2 + Drag.next (Drag.page w))
                   Drag.document_body Drag.mouseup
                 :: Drag.mkListener (1 + Drag.next (Drag.page w))
                      Drag.document_body Drag.mousemove
                 :: Drag.mkListener (Drag.next (Drag.page w)) Drag.handle
                      Drag.mousedown
                 :: Drag.bound (Drag.page w)) by reflexivity.
  assert (Hd : Drag.bound (Drag.page (Drag.dispose_ dragging))
               = Drag.bound (Drag.page w)).
  { unfold Drag.dispose_. cbv zeta.
    change (Drag.mouseDownWrapper_ dragging)
      with (Some (Drag.next (Drag.page w))).
    change (Drag.mouseUpWrapper_ dragging)
      with (Some (2 + Drag.next (Drag.page w)))%nat.
    change (Drag.mouseMoveWrapper_ dragging)
      with (Some (1 + Drag.next (Drag.page w)))%nat.
    cbn [Drag.page Drag.unbind_if_set Drag.unbindEvent_ Drag.bound Drag.next].
    rewrite Hb. do 3 unbind_step.
    rewrite (filter_keeps_numbered _ _ _ Hn (Nat.le_refl _)).
    rewrite (filter_keeps_numbered _ _ (2 + Drag.next (Drag.page w)) Hn)
      by lia.
    apply (filter_keeps_numbered _ _ _ Hn). lia. }
  split; [exact Hb |]. split; [exact Hd |]. split; [reflexivity |].
  apply widget_eq; try reflexivity.
  apply page_eq; [| reflexivity].
  change (Drag.bound (Drag.page (Drag.dispose_ (Drag.dispose_ dragging))))
    with (filter (fun l => negb (Nat.eqb (Drag.id l)
                                   (1 + Drag.next (Drag.page w))))
            (filter (fun l => negb (Nat.eqb (Drag.id l)
                                      (2 + Drag.next (Drag.page w))))
               (filter (fun l => negb (Nat.eqb (Drag.id l)
                                         (Drag.next (Drag.page w))))
                  (Drag.bound (Drag.page (Drag.dispose_ dragging)))))).
  rewrite Hd.
  rewrite (filter_keeps_numbered _ _ _ Hn (Nat.le_refl _)).
  rewrite (filter_keeps_numbered _ _ (2 + Drag.next (Drag.page w)) Hn)
    by lia.
  apply (filter_keeps_numbered _ _ _ Hn). lia.
Qed.

Lemma dispose_mid_drag_witness :
  Drag.bound
    (Drag.page
       (Drag.dispose_
          (Drag.onMouseDown
             (Drag.showEditor_ (FieldUntiangle.showEditor_ false)
                (Drag.fresh Sample.field0 (Drag.mkPage [] 0))))))
  = [].
Proof.
  apply (dispose_mid_drag (FieldUntiangle.showEditor_ false)
           (Drag.fresh Sample.field0 (Drag.mkPage [] 0))).
  constructor.
Defined.

(** X22.  Pressing the handle twice with no release in between loses the
    wrappers of the first press: its [mousemove] and [mouseup] listeners
    stay bound after [onMouseUp], and after [dispose_] as well.  On the
    disposed field, whose dial is gone, [onMouseMove] throws. *)
Theorem double_press_leaks (show : Field -> Field) (w : Drag.Widget) :
  Drag.numbered (Drag.page w) ->
  let n := Drag.next (Drag.page w) in
  let pressed :=
    Drag.onMouseDown (Drag.onMouseDown (Drag.showEditor_ show w)) in
  (exists w' : Drag.Widget,
      Drag.onMouseUp pressed = Some w'
      /\ Drag.bound (Drag.page w')
         = Drag.mkListener (2 + n) Drag.document_body Drag.mouseup
           :: Drag.mkListener (1 + n) Drag.document_body Drag.mousemove
           :: Drag.mkListener n Drag.handle Drag.mousedown
           :: Drag.bound (Drag.page w))
  /\ Drag.bound (Drag.page (Drag.dispose_ pressed))
     = Drag.mkListener (2 + n) Drag.document_body Drag.mouseup
       :: Drag.mkListener (1 + n) Drag.document_body Drag.mousemove
       :: Drag.bound (Drag.page w)
  /\ (forall e : MouseEvent,
         FieldUntiangle.onMouseMove (Drag.field (Drag.dispose_ pressed)) e
         = None
         /\ FieldPercent.onMouseMove (Drag.field (Drag.dispose_ pressed)) e
            = None).
Proof.
  intros Hn n pressed.
  pose proof (bound_after_two_downs show w) as Hb. cbv zeta in Hb.
  fold n pressed in Hb.
  split; [| split].
  - exists (Drag.mkWidget (Drag.field pressed) (Some n) (Some (3 + n)%nat)
              (Some (4 + n)%nat)
              (Drag.unbindEvent_
                 (Drag.unbindEvent_ (Drag.page pressed) (3 + n)) (4 + n))).
    split; [reflexivity |].
    cbn [Drag.page]. unfold Drag.unbindEvent_. cbn [Drag.bound Drag.next].
    rewrite Hb. do 2 unbind_step.
    repeat match goal with
    | |- context [filter (fun x => negb (Nat.eqb (Drag.id x) ?k))
                    (Drag.bound (Drag.page w))] =>
        rewrite (filter_keeps_numbered (Drag.bound (Drag.page w)) _ k Hn)
          by (unfold n; lia)
    end.
    reflexivity.
  - unfold Drag.dispose_. cbv zeta.
    change (Drag.mouseDownWrapper_ pressed) with (Some n).
    change (Drag.mouseUpWrapper_ pressed) with (Some (4 + n))%nat.
    change (Drag.mouseMoveWrapper_ pressed) with (Some (3 + n))%nat.
    cbn [Drag.page Drag.unbind_if_set]. unfold Drag.unbindEvent_.
    cbn [Drag.bound Drag.next].
    rewrite Hb. do 3 unbind_step.
    repeat match goal with
    | |- context [filter (fun x => negb (Nat.eqb (Drag.id x) ?k))
                    (Drag.bound (Drag.page w))] =>
        rewrite (filter_keeps_numbered (Drag.bound (Drag.page w)) _ k Hn)
          by (unfold n; lia)
    end.
    reflexivity.
  - intros e. split; reflexivity.
Qed.

Lemma double_press_leaks_witness :
  Drag.bound
    (Drag.page
       (Drag.dispose_
          (Drag.onMouseDown
             (Drag.onMouseDown
                (Drag.showEditor_ (FieldPercent.showEditor_ false)
                   (Drag.fresh Sample.field0 (Drag.mkPage [] 0)))))))
  = [Drag.mkListener 2 Drag.document_body Drag.mouseup;
     Drag.mkListener 1 Drag.document_body Drag.mousemove].
Proof.
  apply (double_press_leaks (FieldPercent.showEditor_ false)
           (Drag.fresh Sample.field0 (Drag.mkPage [] 0))).
  constructor.
Defined.

(** ** Committing a value *)

(** X23.  Committing a value that is not [null] on a rendered field
    whose editor is open stores its text, redraws the dial for it and
    clears the cached width: when the text reads as the finite number
    [n], the dial left is the drawing of [n].  On a field that is not
    rendered the text is stored and nothing else changes. *)
Theorem setValue_redraws (st : Field) (dial : Dial) (v : value) (n : R) :
  gauge_ st = Some dial ->
  v <> Null ->
  Number (ToString v) = Fin n ->
  (textElement_ st = true ->
   FieldUntiangle.setValue st v
   = with_width
       (with_gauge (with_text st (ToString v))
          (Some (Real.drawn false 90 60 47 n))) (Fin 0)
   /\ FieldPercent.setValue st v
      = with_width
          (with_gauge (with_text st (ToString v))
             (Some (Real.drawn true 90 60 47 n))) (Fin 0))
  /\ (textElement_ st = false ->
      FieldUntiangle.setValue st v = with_text st (ToString v)
      /\ FieldPercent.setValue st v = with_text st (ToString v)).
Proof.
  intros Hg Hv Hn.
  assert (Hset : forall (cw : bool) (O H R : number),
             Gauge.setValue cw O H R st v
             = if negb (textElement_ st) then with_text st (ToString v)
               else with_width
                      (Gauge.updateGraph_ cw O H R
                         (with_text st (ToString v))) (Fin 0)).
  { intros. unfold Gauge.setValue, Gauge.setText, Host.setText.
    destruct v; [contradiction | |]; reflexivity. }
  unfold FieldUntiangle.setValue, FieldPercent.setValue. rewrite !Hset.
  split; intros Hr; rewrite Hr; cbn [negb]; [| split; reflexivity].
  change (Gauge.updateGraph_ FieldUntiangle.CLOCKWISE FieldUntiangle.OFFSET
            FieldUntiangle.HALF FieldUntiangle.RADIUS)
    with FieldUntiangle.updateGraph_.
  change (Gauge.updateGraph_ FieldPercent.CLOCKWISE FieldPercent.OFFSET
            FieldPercent.HALF FieldPercent.RADIUS)
    with FieldPercent.updateGraph_.
  rewrite (untiangle_updateGraph_finite (with_text st (ToString v)) dial n
             Hg Hn).
  rewrite (percent_updateGraph_finite (with_text st (ToString v)) dial n
             Hg Hn).
  split; reflexivity.
Qed.

Lemma setValue_redraws_witness :
  FieldPercent.setValue Sample.field0 (Num (Fin 90))
  = with_width
      (with_gauge (with_text Sample.field0 (Decimal (Fin 90)))
         (Some (Real.drawn true 90 60 47 90))) (Fin 0).
Proof.
  destruct (setValue_redraws Sample.field0 blank_dial (Num (Fin 90)) 90)
    as [H _].
  - reflexivity.
  - discriminate.
  - reflexivity.
  - apply H. reflexivity.
Defined.

(** X24.  The validator of the percent field is idempotent on every
    text: what it returns, be it a rejection, a finite number or an
    infinity, it returns again when given its own result. *)
Theorem percent_classValidator_idempotent (t : str) :
  FieldPercent.classValidator (FieldPercent.classValidator (Str t))
  = FieldPercent.classValidator (Str t).
Proof.
  assert (H : FieldPercent.classValidator (Str t)
              = if Js.isNaN (parseFloat (Str t || Num (Fin 0))%js) then Null
                else Str (Decimal (parseFloat (Str t || Num (Fin 0))%js)))
    by reflexivity.
  rewrite H.
  destruct (Js.isNaN (parseFloat (Str t || Num (Fin 0))%js)) eqn:Hn;
    [reflexivity |].
  unfold FieldPercent.classValidator.
  rewrite parseFloat_Decimal, Hn. reflexivity.
Qed.

Lemma updateGraph_idempotent_witness :
  FieldUntiangle.updateGraph_ (Ctor.new None None) = Ctor.new None None.
Proof.
  apply (updateGraph_idempotent FieldUntiangle.CLOCKWISE FieldUntiangle.OFFSET
           FieldUntiangle.HALF FieldUntiangle.RADIUS (Ctor.new None None)).
  reflexivity.
Defined.

(** ** The value of a field made with "200" *)





